(** * cli-starter: the scaffolding pipeline, embedded and verified

    A shallow embedding of the generator's logic:
    - [src/prompts/index.mjs]   : [getProjectInfo]  (metadata resolver)
    - [src/utils/fs.mjs]        : [copyTemplate]    (template materializer)
    - [src/utils/npm.mjs]       : [updatePackageJson], [installDependencies]
    - [src/utils/git.mjs]       : [getGitUser], [initGit]
    - [src/commands/create.mjs] : [createCommand]   (orchestrator)

    JavaScript strings are modelled as ASCII strings, paths as lists of
    components below the root, permission modes as integers, the file
    system as a finite map from paths to nodes, the console as the list
    of what the logger printed: its messages and the error objects it
    is handed.

    Conventions:
    - the template tree is input that is only read, given as a tree;
      the target lives in the file-system map, apart from the template;
    - a text read with the utf8 encoding and written back is the same
      text;
    - a prompt never throws: while it is not answered the computation
      waits; an answer is a submitted line, and an empty line is Enter
      pressed on a prompt whose default, if it has one, is untouched;
    - a directory listing comes in the order [fs.readdir] returns it,
      sorted by name ([listed]); the concrete trees below are in that
      order;
    - access rights are modelled for the template ([TDenied]), not for
      the files of the target: a file that is there can be read and
      replaced;
    - Handlebars, [JSON.parse], the serialization of [writeJson], the
      child processes and the git configuration are parameters. *)

From Stdlib Require Import ZArith Ascii String List Bool.
From stdpp Require Import base option list gmap strings.

Open Scope string_scope.
Open Scope list_scope.

(** ** JavaScript string primitives used by the sources *)

Module Js.

Definition strlen (s : string) : nat := String.length s.

(** [s.slice(n)] for a non-negative [n]. *)
Fixpoint slice (n : nat) (s : string) : string :=
  match n, s with
  | O, _ => s
  | S _, EmptyString => EmptyString
  | S n', String _ s' => slice n' s'
  end.

(** [s.charAt(0)]: the empty string when [s] is empty. *)
Definition charAt0 (s : string) : string :=
  match s with
  | EmptyString => EmptyString
  | String c _ => String c EmptyString
  end.

Definition startsWith (p s : string) : bool := String.prefix p s.

(** [s.endsWith(suffix)]. *)
Definition endsWith (suffix s : string) : bool :=
  (strlen suffix <=? strlen s)%nat
  && String.eqb (slice (strlen s - strlen suffix) s) suffix.

(** [s.replace(pat, rep)] with a string pattern: only the first
    occurrence, scanning from the left, is replaced. *)
Fixpoint replace (pat rep s : string) : string :=
  if startsWith pat s then rep +:+ slice (strlen pat) s
  else match s with
       | EmptyString => EmptyString
       | String c s' => String c (replace pat rep s')
       end.

(** [s.replace(/c/g, d)] for a one-character pattern: every occurrence. *)
Fixpoint replaceAllChar (c d : ascii) (s : string) : string :=
  match s with
  | EmptyString => EmptyString
  | String x s' =>
      String (if Ascii.eqb x c then d else x) (replaceAllChar c d s')
  end.

(** [s.includes(pat)] *)
Fixpoint includes (pat s : string) : bool :=
  startsWith pat s
  || match s with
     | EmptyString => false
     | String _ s' => includes pat s'
     end.

Definition code (c : ascii) : nat := nat_of_ascii c.

Definition isLower (c : ascii) : bool := (97 <=? code c)%nat && (code c <=? 122)%nat.
Definition isUpper (c : ascii) : bool := (65 <=? code c)%nat && (code c <=? 90)%nat.
Definition isDigit (c : ascii) : bool := (48 <=? code c)%nat && (code c <=? 57)%nat.

Definition upperChar (c : ascii) : ascii :=
  if isLower c then ascii_of_nat (code c - 32) else c.

(** [s.toUpperCase()], exact on ASCII text. Outside ASCII the method
    follows the Unicode case mappings and may lengthen the string,
    which bytes do not express: what is proved about upper-cased text
    for every input carries [isAscii] as a hypothesis. *)
Fixpoint toUpperCase (s : string) : string :=
  match s with
  | EmptyString => EmptyString
  | String c s' => String (upperChar c) (toUpperCase s')
  end.

(** [a || b] on strings that may be [undefined]: the empty string and
    [undefined] are both falsy. *)
Definition truthy (v : option string) : option string :=
  match v with
  | Some EmptyString => None
  | Some s => Some s
  | None => None
  end.

Definition or (v : option string) (alt : string) : string :=
  match truthy v with
  | Some s => s
  | None => alt
  end.

Fixpoint forallb_string (p : ascii -> bool) (s : string) : bool :=
  match s with
  | EmptyString => true
  | String c s' => p c && forallb_string p s'
  end.

(** The text is ASCII: its bytes are the code units of the JavaScript
    string. *)
Definition isAsciiChar (c : ascii) : bool := (code c <? 128)%nat.
Definition isAscii (s : string) : bool := forallb_string isAsciiChar s.

End Js.

(** ** Metadata resolver: src/prompts/index.mjs *)

(** The interactive layer of [@inquirer/prompts]: a computation either
    is finished or is suspended on a question, and resumes with the
    submitted answer. *)
Inductive prompt (A : Type) : Type :=
| Done (a : A)
| Input (message : string) (default : option string)
        (validate : string -> bool) (k : string -> prompt A)
| Select (message : string) (choices : list (string * string))
         (default : string) (k : string -> prompt A).

Arguments Done {A} a.
Arguments Input {A} message default validate k.
Arguments Select {A} message choices default k.

Fixpoint pbind {A B : Type} (p : prompt A) (f : A -> prompt B) : prompt B :=
  match p with
  | Done a => f a
  | Input m d v k => Input m d v (fun s => pbind (k s) f)
  | Select m c d k => Select m c d (fun s => pbind (k s) f)
  end.

(** Whether a computation is suspended on a question. *)
Definition suspends {A : Type} (p : prompt A) : bool :=
  match p with
  | Done _ => false
  | _ => true
  end.

(** An [input] prompt keeps the user in the prompt until a submitted
    line passes [validate]. An empty line is Enter pressed with the
    default untouched and stands for the default. A default that the
    user clears before pressing Enter, after which the prompt returns
    the empty string, is not among the answers of this model: nothing
    below is concluded from a default having been used. *)
Fixpoint submit (default : option string) (validate : string -> bool)
         (answers : list string) : option (string * list string) :=
  match answers with
  | [] => None
  | a :: rest =>
      let answer := Js.or (Some a) (Js.or default "") in
      if validate answer then Some (answer, rest)
      else submit default validate rest
  end.

(** A [select] prompt returns the value of one of its choices; an empty
    line confirms the default, anything else is not a submission. *)
Fixpoint choose (choices : list (string * string)) (default : string)
         (answers : list string) : option (string * list string) :=
  match answers with
  | [] => None
  | a :: rest =>
      let answer := Js.or (Some a) default in
      if existsb (fun c => String.eqb (fst c) answer) choices
      then Some (answer, rest)
      else choose choices default rest
  end.

(** Running a computation against the lines the user will submit.
    [None]: the computation is still waiting for input. *)
Fixpoint run {A : Type} (p : prompt A) (answers : list string)
  : option (A * list string) :=
  match p with
  | Done a => Some (a, answers)
  | Input _ d v k =>
      match submit d v answers with
      | Some (s, rest) => run (k s) rest
      | None => None
      end
  | Select _ c d k =>
      match choose c d answers with
      | Some (s, rest) => run (k s) rest
      | None => None
      end
  end.

Module ProjectInfo.
Record t : Type := mk {
  name : string;
  title : string;
  description : string;
  author : string;
  license : string;
  email : string
}.
End ProjectInfo.

(** The identity provider: what [getGitUser] of src/utils/git.mjs
    returned (empty strings when the lookup failed). *)
Record GitUser : Type := { git_name : string; git_email : string }.

(** Command-line options as commander hands them over: [--yes],
    and [git]/[install], which [--no-git]/[--no-install] turn off. *)
Record Options : Type := { yes : bool; git : bool; install : bool }.

(** [/^[a-zA-Z0-9-_]+$/.test(value)] *)
Definition nameChar (c : ascii) : bool :=
  Js.isLower c || Js.isUpper c || Js.isDigit c
  || Ascii.eqb c "-"%char || Ascii.eqb c "_"%char.

Definition validName (value : string) : bool :=
  negb (String.eqb value "") && Js.forallb_string nameChar value.

(** [n.charAt(0).toUpperCase() + n.slice(1).replace(/-/g, ' ')] *)
Definition defaultTitle (n : string) : string :=
  Js.toUpperCase (Js.charAt0 n)
  +:+ Js.replaceAllChar "-"%char " "%char (Js.slice 1 n).

Definition licenseChoices : list (string * string) :=
  [("MIT", "MIT"); ("ISC", "ISC");
   ("Apache-2.0", "Apache 2.0"); ("GPL-3.0", "GPL 3.0")].

Definition getProjectInfo (name : option string) (options : Options)
           (gitUser : GitUser) : prompt ProjectInfo.t :=
  if yes options then
    let directoryName := Js.or name "cli-app" in
    Done (ProjectInfo.mk directoryName (defaultTitle directoryName) ""
            (git_name gitUser) "MIT" (git_email gitUser))
  else
    pbind (match Js.truthy name with
           | Some n => Done n
           | None => Input "Package/directory name:" None validName Done
           end)
      (fun packageName =>
         Input "Human-readable title:" (Some (defaultTitle packageName))
           (fun _ => true)
           (fun title =>
              Input "Project description:" None (fun _ => true)
                (fun description =>
                   Input "Author:" (Some (git_name gitUser)) (fun _ => true)
                     (fun author =>
                        Select "License:" licenseChoices "MIT"
                          (fun license =>
                             Done (ProjectInfo.mk packageName title description
                                     author license (git_email gitUser))))))).

(** The title as the specification words it: the hyphen-to-space
    transform of the whole name, capitalized. *)
Definition spec_capitalize (s : string) : string :=
  Js.toUpperCase (Js.charAt0 s) +:+ Js.slice 1 s.

Definition spec_derived_title (n : string) : string :=
  spec_capitalize (Js.replaceAllChar "-"%char " "%char n).

(** ** Paths: the [path] module of Node on POSIX *)

(** An absolute, normalized path is the list of its components below
    the root. *)
Abbreviation path := (list string).

(** [s.split('/')] *)
Fixpoint segments (s : string) : list string :=
  match s with
  | EmptyString => [EmptyString]
  | String c s' =>
      if Ascii.eqb c "/"%char then EmptyString :: segments s'
      else match segments s' with
           | seg :: rest => String c seg :: rest
           | [] => [String c EmptyString]
           end
  end.

(** Normalization, one segment at a time: empty and [.] segments
    vanish, [..] climbs (the root is its own parent). *)
Definition enter (base : path) (seg : string) : path :=
  if String.eqb seg "" || String.eqb seg "." then base
  else if String.eqb seg ".." then removelast base
  else base ++ [seg].

(** [path.join(base, s)] for an absolute normalized [base]. *)
Definition path_join (base : path) (s : string) : path :=
  fold_left enter (segments s) base.

(** [path.resolve(cwd, s)]: an absolute [s] discards [cwd]. *)
Definition path_resolve (cwd : path) (s : string) : path :=
  if Js.startsWith "/" s then fold_left enter (segments s) []
  else fold_left enter (segments s) cwd.

(** [path.dirname] *)
Definition dirname (p : path) : path := removelast p.

(** All ancestors of [p] below the root together with [p] itself,
    outermost first: the directories [mkdir -p] visits. *)
Fixpoint chain (base rest : path) : list path :=
  match rest with
  | [] => []
  | c :: rest' => (base ++ [c]) :: chain (base ++ [c]) rest'
  end.

(** ** The world the program runs in *)

Inductive node : Type :=
| NDir
| NFile (mode : Z) (data : string).

(** What a console entry is: a message of one of the four logger
    methods, or an error object printed bare by [console.error(error)]
    (here: the code the error carries). *)
Inductive level : Type := LInfo | LSuccess | LWarning | LError | LErrorObject.

Record World : Type := mkWorld {
  files : gmap path node;             (* the file system outside the package *)
  console : list (level * string);    (* what the logger printed, oldest first *)
  umask : Z                           (* the process file-creation mask *)
}.

Definition setFiles (fs : gmap path node) (w : World) : World :=
  mkWorld fs (console w) (umask w).

(** How a computation ends: with a value, with a thrown exception, or
    because [process.exit] stopped the process. *)
Inductive result (A : Type) : Type :=
| Value (a : A)
| Thrown (e : string)
| Exited (code : Z).

Arguments Value {A} a.
Arguments Thrown {A} e.
Arguments Exited {A} code.

Definition io (A : Type) : Type := World -> World * result A.

#[global] Instance io_ret : MRet io := fun A a w => (w, Value a).

#[global] Instance io_bind : MBind io := fun A B f m w =>
  match m w with
  | (w', Value a) => f a w'
  | (w', Thrown e) => (w', Thrown e)
  | (w', Exited c) => (w', Exited c)
  end.

Definition throw {A : Type} (e : string) : io A := fun w => (w, Thrown e).

(** [process.exit(code)]: no [catch] block runs after it. *)
Definition process_exit {A : Type} (code : Z) : io A := fun w => (w, Exited code).

(** [try { body } catch (error) { handler }] *)
Definition tryCatch {A : Type} (body : io A) (handler : string -> io A) : io A :=
  fun w =>
    match body w with
    | (w', Thrown e) => handler e w'
    | other => other
    end.

(** src/utils/logger.mjs. [logger.error(message, error)] prints the
    message and, when it is given an error object, that object after
    it; [None] is a call without the second argument. *)
Module logger.
Definition print (l : level) (message : string) : io unit :=
  fun w => (mkWorld (files w) (console w ++ [(l, message)]) (umask w), Value tt).
Definition info := print LInfo.
Definition success := print LSuccess.
Definition warning := print LWarning.
Definition error (message : string) (error : option string) : io unit :=
  print LError message;;
  match error with
  | Some e => print LErrorObject e
  | None => mret tt
  end.
End logger.

(** ** File-system primitives (fs-extra) *)

Definition lookupNode (fs : gmap path node) (p : path) : option node :=
  match p with
  | [] => Some NDir
  | _ => fs !! p
  end.

(** [mkdir -p]: walk down from the root, creating what is missing; a
    regular file in the way is an error. *)
Fixpoint mkdirs (todo : list path) (fs : gmap path node) : option (gmap path node) :=
  match todo with
  | [] => Some fs
  | p :: todo' =>
      match fs !! p with
      | Some (NFile _ _) => None
      | Some NDir => mkdirs todo' fs
      | None => mkdirs todo' (<[p := NDir]> fs)
      end
  end.

Definition ensureDir (p : path) : io unit := fun w =>
  match mkdirs (chain [] p) (files w) with
  | Some fs => (setFiles fs w, Value tt)
  | None => (w, Thrown "EEXIST")
  end.

Definition existsSync (p : path) (w : World) : bool :=
  match lookupNode (files w) p with
  | Some _ => true
  | None => false
  end.

(** Names of the entries directly inside [p]. *)
Definition children (fs : gmap path node) (p : path) : list string :=
  omap (fun q => match last q with
                 | Some c => if decide (dirname q = p) then Some c else None
                 | None => None
                 end)
       (map fst (map_to_list fs)).

Definition readdirSync (p : path) : io (list string) := fun w =>
  match lookupNode (files w) p with
  | Some NDir => (w, Value (children (files w) p))
  | Some (NFile _ _) => (w, Thrown "ENOTDIR")
  | None => (w, Thrown "ENOENT")
  end.

(** The mode a freshly created file gets: [0o666 & ~umask]. *)
Definition newFileMode (w : World) : Z := Z.land 438 (Z.lnot (umask w)).

(** [fs.writeFile(p, data)]: creates the file or replaces the content
    of an existing one, whose mode it keeps. *)
Definition writeFile (p : path) (data : string) : io unit := fun w =>
  match p with
  | [] => (w, Thrown "EISDIR")
  | _ =>
      match lookupNode (files w) (dirname p) with
      | Some NDir =>
          match files w !! p with
          | Some NDir => (w, Thrown "EISDIR")
          | Some (NFile m _) => (setFiles (<[p := NFile m data]> (files w)) w, Value tt)
          | None => (setFiles (<[p := NFile (newFileMode w) data]> (files w)) w, Value tt)
          end
      | Some (NFile _ _) => (w, Thrown "ENOTDIR")
      | None => (w, Thrown "ENOENT")
      end
  end.

(** [fs.chmod(p, mode)]; the modes of directories are not tracked. *)
Definition chmod (p : path) (mode : Z) : io unit := fun w =>
  match lookupNode (files w) p with
  | Some (NFile _ data) => (setFiles (<[p := NFile mode data]> (files w)) w, Value tt)
  | Some NDir => (w, Value tt)
  | None => (w, Thrown "ENOENT")
  end.

(** ** The template tree: what [readdir] with [withFileTypes] shows *)

(** [TDir entries]: the entries in the order [fs.readdir] lists them. *)
#[local] Unset Elimination Schemes.
Inductive tnode : Type :=
| TFile (mode : Z) (data : string)
| TDir (entries : list (string * tnode))
| TDenied (isDir : bool).   (* an entry whose content cannot be read *)
#[local] Set Elimination Schemes.

(** The order of a listing: names strictly ascending. *)
Fixpoint ascending (names : list string) : bool :=
  match names with
  | a :: (b :: _) as rest => String.ltb a b && ascending rest
  | _ => true
  end.

(** A tree all of whose listings are in the order of [fs.readdir]. *)
Fixpoint listed (template : tnode) : bool :=
  match template with
  | TDir entries =>
      ascending (map fst entries)
      && (fix all (entries : list (string * tnode)) : bool :=
            match entries with
            | [] => true
            | (_, file) :: rest => listed file && all rest
            end) entries
  | _ => true
  end.

Definition isDirectory (file : tnode) : bool :=
  match file with
  | TDir _ => true
  | TDenied d => d
  | TFile _ _ => false
  end.

Definition readdir (template : tnode) : io (list (string * tnode)) :=
  match template with
  | TDir entries => mret entries
  | TDenied _ => throw "EACCES"
  | TFile _ _ => throw "ENOTDIR"
  end.

Definition readFile (file : tnode) : io string :=
  match file with
  | TFile _ data => mret data
  | TDenied _ => throw "EACCES"
  | TDir _ => throw "EISDIR"
  end.

(** Induction over template trees, through the listings. *)
Section tnode_induction.

Variable P : tnode -> Prop.
Hypothesis Hfile : forall mode data, P (TFile mode data).
Hypothesis Hdir : forall entries, Forall (fun e => P (snd e)) entries -> P (TDir entries).
Hypothesis Hdenied : forall d, P (TDenied d).

Fixpoint tnode_ind (t : tnode) : P t :=
  match t with
  | TFile mode data => Hfile mode data
  | TDir entries =>
      Hdir entries
        ((fix all (l : list (string * tnode)) : Forall (fun e => P (snd e)) l :=
            match l with
            | [] => @List.Forall_nil _ _
            | e :: l' => @List.Forall_cons _ _ e l' (tnode_ind (snd e)) (all l')
            end) entries)
  | TDenied d => Hdenied d
  end.

End tnode_induction.

(** [fs.copy(src, dest)] of fs-extra for a regular file [src]: refuses
    to put a file where a directory is, creates the parent directory
    when it is missing, replaces an existing file, and gives the copy
    the mode of the source. *)
Definition copy (src : tnode) (dest : path) : io unit := fun w =>
  match lookupNode (files w) dest with
  | Some NDir => (w, Thrown "EISDIR")
  | _ =>
      match mkdirs (chain [] (dirname dest)) (files w) with
      | None => (w, Thrown "EEXIST")
      | Some fs =>
          match src with
          | TFile mode data => (setFiles (<[dest := NFile mode data]> fs) w, Value tt)
          | _ => (setFiles fs w, Thrown "EACCES")
          end
      end
  end.

(** ** Template materializer: src/utils/fs.mjs *)

Section Materializer.

(** [Handlebars.compile(content)(variables)]; [None] when the
    template text does not compile. *)
Variable handlebars : string -> ProjectInfo.t -> option string.

Definition render (content : string) (variables : ProjectInfo.t) : io string :=
  match handlebars content variables with
  | Some processed => mret processed
  | None => throw "Parse error"
  end.

(** The body of the [for (const file of files)] loop, lines 31-58;
    [recurse] is [copyTemplate] at the entry, for the directory
    branch. *)
Definition copyEntry (recurse : path -> io bool)
           (name : string) (file : tnode)
           (targetPath : path) (variables : ProjectInfo.t) : io unit :=
  let targetFileName := Js.replace ".template" "" name in
  let destPath := path_join targetPath targetFileName in
  if isDirectory file then
    _ ← recurse destPath; mret tt
  else if Js.endsWith ".template" name then
    content ← readFile file;
    processed ← render content variables;
    writeFile destPath processed;;
    (if String.eqb targetFileName "index.mjs" then chmod destPath 493 else mret tt);;
    logger.info ("Created " +:+ targetFileName)
  else if String.eqb name "gitignore" then
    content ← readFile file;
    writeFile (path_join targetPath ".gitignore") content;;
    logger.info "Created .gitignore"
  else
    copy file destPath;;
    logger.info ("Copied " +:+ name).

Definition copyFailed (e : string) : io bool :=
  logger.error "Failed to copy template" (Some e);; mret false.

(** [copyTemplate(templatePath, targetPath, variables)], where
    [template] is what lies at [templatePath]. The value a recursive
    call returns is dropped, as in the source; 493 is 0o755. *)
Fixpoint copyTemplate (template : tnode) (targetPath : path)
         (variables : ProjectInfo.t) {struct template} : io bool :=
  tryCatch
    (ensureDir targetPath;;
     match template with
     | TDir files =>
         (fix forOf (files : list (string * tnode)) : io bool :=
            match files with
            | [] => mret true
            | (name, file) :: rest =>
                copyEntry (fun destPath => copyTemplate file destPath variables)
                          name file targetPath variables;;
                forOf rest
            end) files
     | other => _ ← readdir other; mret true
     end)
    copyFailed.

(** The loop of [copyTemplate] over the listing of one directory. *)
Fixpoint copyEntries (files : list (string * tnode)) (targetPath : path)
         (variables : ProjectInfo.t) : io bool :=
  match files with
  | [] => mret true
  | (name, file) :: rest =>
      copyEntry (fun destPath => copyTemplate file destPath variables)
                name file targetPath variables;;
      copyEntries rest targetPath variables
  end.

End Materializer.

(** ** JSON values and the manifest: src/utils/npm.mjs *)

#[local] Unset Elimination Schemes.
Inductive json : Type :=
| JNull
| JBool (b : bool)
| JNumber (literal : string)
| JString (s : string)
| JArray (items : list json)
| JObject (members : list (string * json)).
#[local] Set Elimination Schemes.

(** [members[key]] *)
Fixpoint member (key : string) (members : list (string * json)) : option json :=
  match members with
  | [] => None
  | (k, v) :: rest => if String.eqb k key then Some v else member key rest
  end.

(** [members[key] = value]: an existing key keeps its place, a new one
    goes last. *)
Fixpoint assign (key : string) (value : json) (members : list (string * json))
  : list (string * json) :=
  match members with
  | [] => [(key, value)]
  | (k, v) :: rest =>
      if String.eqb k key then (k, value) :: rest
      else (k, v) :: assign key value rest
  end.

Definition getProperty (key : string) (target : json) : option json :=
  match target with
  | JObject members => member key members
  | _ => None
  end.

(** [target[key] = value] in a module (strict mode): a [TypeError] on
    [null] and on primitives; on an array the named property is set but
    never serialized, so the value that will be written is unchanged. *)
Definition setProperty (key : string) (value : json) (target : json) : io json :=
  match target with
  | JObject members => mret (JObject (assign key value members))
  | JArray items => mret (JArray items)
  | _ => throw "TypeError"
  end.

Section Steps.

Variable handlebars : string -> ProjectInfo.t -> option string.

(** [JSON.parse] ([None]: a syntax error) and the serialization
    [writeJson] performs with [{ spaces: 2 }]. *)
Variable JSON_parse : string -> option json.
Variable JSON_stringify : json -> string.

(** A child process run by [execPromise(command, { cwd })]: what it
    leaves on disk and whether it exited with code 0. *)
Variable exec : string -> path -> gmap path node -> gmap path node * bool.

(** Trimmed output of [git config --get key]; [None] when the command
    fails. *)
Variable gitConfig : string -> option string.

Definition execPromise (command : string) (cwd : path) : io unit := fun w =>
  match exec command cwd (files w) with
  | (fs, true) => (setFiles fs w, Value tt)
  | (fs, false) => (setFiles fs w, Thrown "Command failed")
  end.

Definition readJson (p : path) : io json := fun w =>
  match lookupNode (files w) p with
  | Some (NFile _ data) =>
      match JSON_parse data with
      | Some v => (w, Value v)
      | None => (w, Thrown "SyntaxError")
      end
  | Some NDir => (w, Thrown "EISDIR")
  | None => (w, Thrown "ENOENT")
  end.

Definition writeJson (p : path) (obj : json) : io unit :=
  writeFile p (JSON_stringify obj).

Definition installDependencies (targetDir : path) : io bool :=
  tryCatch
    (logger.info "Installing dependencies... This might take a few minutes.";;
     execPromise "npm install" targetDir;;
     logger.success "Dependencies installed successfully";;
     mret true)
    (fun e => logger.error "Failed to install dependencies" (Some e);; mret false).

Definition updatePackageJson (targetDir : path) (projectInfo : ProjectInfo.t)
  : io bool :=
  tryCatch
    (let packageJsonPath := path_join targetDir "package.json" in
     packageJson ← readJson packageJsonPath;
     packageJson ← setProperty "name" (JString (ProjectInfo.name projectInfo)) packageJson;
     packageJson ← setProperty "description"
                     (JString (ProjectInfo.description projectInfo)) packageJson;
     packageJson ← setProperty "author" (JString (ProjectInfo.author projectInfo)) packageJson;
     packageJson ← setProperty "license" (JString (ProjectInfo.license projectInfo)) packageJson;
     packageJson ← setProperty "bin"
                     (JObject [(ProjectInfo.name projectInfo, JString "index.mjs")])
                     packageJson;
     writeJson packageJsonPath packageJson;;
     logger.success "Updated package.json with project information";;
     mret true)
    (fun e => logger.error "Failed to update package.json" (Some e);; mret false).

(** src/utils/git.mjs *)
Definition getGitUser : io GitUser :=
  tryCatch
    (match gitConfig "user.name", gitConfig "user.email" with
     | Some n, Some e => mret {| git_name := n; git_email := e |}
     | _, _ => throw "Command failed"
     end)
    (fun _ => logger.warning "Could not get git user info";;
              mret {| git_name := ""; git_email := "" |}).

Definition initGit (targetDir : path) : io bool :=
  tryCatch
    (execPromise "git init" targetDir;;
     logger.success "Initialized git repository";;
     mret true)
    (fun _ => logger.warning "Failed to initialize git repository";; mret false).

(** ** Orchestrator: src/commands/create.mjs *)

(** What the awaited steps returned; the source discards these
    values. [None]: the step was switched off. *)
Record Steps : Type := {
  copied : bool;
  patched : bool;
  gitInitialized : option bool;
  installed : option bool
}.

Definition nl : string := String (ascii_of_nat 10) EmptyString.

(** The closing message of [createCommand]. *)
Definition nextSteps (n : string) : string :=
  nl +:+ "CLI application " +:+ n +:+ " created successfully!" +:+ nl
  +:+ nl
  +:+ "Next steps:" +:+ nl
  +:+ "$ cd " +:+ n +:+ nl
  +:+ "$ npm link    # To make the CLI available globally" +:+ nl
  +:+ "$ npm start   # To run the CLI" +:+ nl.

Definition whenOn (flag : bool) (step : io bool) : io (option bool) :=
  if flag then r ← step; mret (Some r) else mret None.

(** The [try] block of [createCommand], from the resolved
    [projectInfo] on. *)
Definition createProject (projectInfo : ProjectInfo.t) (options : Options)
           (cwd : path) (scaffold : tnode) : io Steps :=
  let targetDir := path_resolve cwd (ProjectInfo.name projectInfo) in
  (fun w =>
     if existsSync targetDir w then
       (entries ← readdirSync targetDir;
        let isEmpty := Nat.eqb (length entries) 0 in
        (if negb isEmpty then
           logger.error ("Directory " +:+ ProjectInfo.name projectInfo
                         +:+ " already exists and is not empty.") None
         else
           logger.error ("Directory " +:+ ProjectInfo.name projectInfo
                         +:+ " already exists.") None);;
        process_exit 1) w
     else (w, Value tt));;
  ensureDir targetDir;;
  c ← copyTemplate handlebars scaffold targetDir projectInfo;
  p ← updatePackageJson targetDir projectInfo;
  g ← whenOn (git options) (initGit targetDir);
  i ← whenOn (install options) (installDependencies targetDir);
  logger.success (nextSteps (ProjectInfo.name projectInfo));;
  mret {| copied := c; patched := p; gitInitialized := g; installed := i |}.

Definition createFailed (e : string) : io Steps :=
  logger.error "Failed to create project:" (Some e);; process_exit 1.

Definition createCommand (name : option string) (options : Options)
           (cwd : path) (scaffold : tnode) (w : World)
  : prompt (World * result Steps) :=
  match getGitUser w with
  | (w1, Value gitUser) =>
      pbind (getProjectInfo name options gitUser)
        (fun projectInfo =>
           Done (tryCatch (createProject projectInfo options cwd scaffold)
                          createFailed w1))
  | (w1, Thrown e) => Done (createFailed e w1)
  | (w1, Exited c) => Done (w1, Exited c)
  end.

(** The status the process ends with. *)
Definition exitCode {A : Type} (r : result A) : Z :=
  match r with
  | Value _ => 0
  | Thrown _ => 1
  | Exited c => c
  end.

(** Whether the run went through [copyTemplate]: both exits of
    [createCommand] lie before that call, nothing after it can throw. *)
Definition materialized {A : Type} (r : result A) : bool :=
  match r with
  | Value _ => true
  | _ => false
  end.

End Steps.

(** ** The first generation of the command: prompts/index.js and
    commands/create.js *)

Module ProjectInfoJs.
Record t : Type := mk {
  name : string;
  description : string;
  author : string;
  license : string;
  email : string
}.
End ProjectInfoJs.

(** [getProjectInfo] of prompts/index.js: no title yet. *)
Definition getProjectInfoJs (name : option string) (options : Options)
           (gitUser : GitUser) : prompt ProjectInfoJs.t :=
  if yes options then
    Done (ProjectInfoJs.mk (Js.or name "cli-app") ""
            (git_name gitUser) "MIT" (git_email gitUser))
  else
    pbind (match Js.truthy name with
           | Some n => Done n
           | None => Input "Project name:" None validName Done
           end)
      (fun projectName =>
         Input "Project description:" None (fun _ => true)
           (fun description =>
              Input "Author:" (Some (git_name gitUser)) (fun _ => true)
                (fun author =>
                   Select "License:" licenseChoices "MIT"
                     (fun license =>
                        Done (ProjectInfoJs.mk projectName description
                                author license (git_email gitUser)))))).

(** What the awaited steps of commands/create.js returned. *)
Record StepsJs : Type := {
  copiedJs : bool;
  gitInitializedJs : option bool;
  installedJs : option bool
}.

Section CreateJs.

Variable exec : string -> path -> gmap path node -> gmap path node * bool.
Variable gitConfig : string -> option string.

(** [copyTemplate] of utils/fs.js, which is not among the sources, at
    the template path [scaffold/cli]: any computation. *)
Variable copyTemplateJs : path -> ProjectInfoJs.t -> io bool.

(** The steps of commands/create.js after the check of the target,
    lines 28-52. *)
Definition materializeJs (projectInfo : ProjectInfoJs.t) (options : Options)
           (targetDir : path) : io StepsJs :=
  ensureDir targetDir;;
  c ← copyTemplateJs targetDir projectInfo;
  g ← whenOn (git options) (initGit exec targetDir);
  i ← whenOn (install options) (installDependencies exec targetDir);
  logger.success (nextSteps (ProjectInfoJs.name projectInfo));;
  mret {| copiedJs := c; gitInitializedJs := g; installedJs := i |}.

(** The [try] block of [createCommand] in commands/create.js, from the
    resolved [projectInfo] on. *)
Definition createProjectJs (projectInfo : ProjectInfoJs.t) (options : Options)
           (cwd : path) : io StepsJs :=
  let targetDir := path_resolve cwd (ProjectInfoJs.name projectInfo) in
  (fun w =>
     if existsSync targetDir w then
       (entries ← readdirSync targetDir;
        if Nat.ltb 0 (length entries) then
          logger.error ("Directory " +:+ ProjectInfoJs.name projectInfo
                        +:+ " already exists and is not empty.") None;;
          process_exit 1
        else mret tt) w
     else (w, Value tt));;
  materializeJs projectInfo options targetDir.

Definition createFailedJs (e : string) : io StepsJs :=
  logger.error "Failed to create project:" (Some e);; process_exit 1.

Definition createCommandJs (name : option string) (options : Options)
           (cwd : path) (w : World) : prompt (World * result StepsJs) :=
  match getGitUser gitConfig w with
  | (w1, Value gitUser) =>
      pbind (getProjectInfoJs name options gitUser)
        (fun projectInfo =>
           Done (tryCatch (createProjectJs projectInfo options cwd)
                          createFailedJs w1))
  | (w1, Thrown e) => Done (createFailedJs e w1)
  | (w1, Exited c) => Done (w1, Exited c)
  end.

End CreateJs.

(** ** Vocabulary of the properties *)

(** [keeps q m]: running [m] leaves what the file system holds at [q]
    as it was, however [m] ends. *)
Definition keeps {A : Type} (q : path) (m : io A) : Prop :=
  forall w w' r, m w = (w', r) -> files w' !! q = files w !! q.

(** [noexit m]: [m] never stops the process; [returns m]: [m] always
    ends with a value. *)
Definition noexit {A : Type} (m : io A) : Prop :=
  forall w w' c, m w <> (w', Exited c).

Definition returns {A : Type} (m : io A) : Prop :=
  forall w, exists w' a, m w = (w', Value a).

(** The paths a walk may write to: every destination and, where
    directories are created on the way, the ancestors of it. *)
Definition writeSetEntry (recurse : path -> list path)
           (name : string) (file : tnode) (targetPath : path) : list path :=
  let targetFileName := Js.replace ".template" "" name in
  let destPath := path_join targetPath targetFileName in
  if isDirectory file then recurse destPath
  else if Js.endsWith ".template" name then [destPath]
  else if String.eqb name "gitignore" then [path_join targetPath ".gitignore"]
  else destPath :: chain [] (dirname destPath).

Fixpoint writeSet (template : tnode) (targetPath : path) {struct template} : list path :=
  chain [] targetPath ++
  match template with
  | TDir files =>
      (fix over (files : list (string * tnode)) : list path :=
         match files with
         | [] => []
         | (name, file) :: rest =>
             writeSetEntry (writeSet file) name file targetPath ++ over rest
         end) files
  | _ => []
  end.

Fixpoint writeSetEntries (files : list (string * tnode)) (targetPath : path) : list path :=
  match files with
  | [] => []
  | (name, file) :: rest =>
      writeSetEntry (writeSet file) name file targetPath ++ writeSetEntries rest targetPath
  end.

Definition ownerExecutable (mode : Z) : bool := Z.testbit mode 6.

(** The five assignments of [updatePackageJson], lines 108-116. *)
Definition patchManifest (projectInfo : ProjectInfo.t) (members : list (string * json))
  : list (string * json) :=
  assign "bin" (JObject [(ProjectInfo.name projectInfo, JString "index.mjs")])
    (assign "license" (JString (ProjectInfo.license projectInfo))
       (assign "author" (JString (ProjectInfo.author projectInfo))
          (assign "description" (JString (ProjectInfo.description projectInfo))
             (assign "name" (JString (ProjectInfo.name projectInfo)) members)))).

(** The value [writeJson] is given, from the value [readJson] returned;
    [None] where an assignment throws. *)
Definition patchJson (projectInfo : ProjectInfo.t) (manifest : json) : option json :=
  match manifest with
  | JObject members => Some (JObject (patchManifest projectInfo members))
  | JArray items => Some (JArray items)
  | _ => None
  end.

Definition patchedKeys : list string :=
  ["name"; "description"; "author"; "license"; "bin"].

Definition updateFailed (e : string) : io bool :=
  logger.error "Failed to update package.json" (Some e);; mret false.

(** Whether [ensureDir p] can succeed: no regular file sits at [p] or
    at an ancestor of it. *)
Definition canCreate (p : path) (w : World) : bool :=
  match mkdirs (chain [] p) (files w) with
  | Some _ => true
  | None => false
  end.

(** [p] is a directory with nothing inside. *)
Definition emptyDirectory (p : path) (w : World) : Prop :=
  lookupNode (files w) p = Some NDir /\ children (files w) p = [].

(** A name none of whose segments is [..]: joined to a path, it stays at
    or below that path. *)
Definition staysBelow (s : string) : bool :=
  negb (existsb (String.eqb "..") (segments s)).

(** Every entry of the tree, once the marker is removed from its name,
    stays below the directory it is materialized into. *)
Fixpoint safeNames (template : tnode) : bool :=
  match template with
  | TDir files =>
      (fix all (files : list (string * tnode)) : bool :=
         match files with
         | [] => true
         | (name, file) :: rest =>
             staysBelow (Js.replace ".template" "" name) && safeNames file && all rest
         end) files
  | _ => true
  end.

Fixpoint safeEntries (files : list (string * tnode)) : bool :=
  match files with
  | [] => true
  | (name, file) :: rest =>
      staysBelow (Js.replace ".template" "" name) && safeNames file && safeEntries rest
  end.

(** The keys of an object, in order. *)
Definition keysOf (members : list (string * json)) : list string := map fst members.

(** Where a key assigned to an object ends up: in place when it is
    there, last when it is new. *)
Definition addKey (keys : list string) (key : string) : list string :=
  if existsb (String.eqb key) keys then keys else keys ++ [key].


(** ** Concrete data for the examples *)

(** A stand-in for Handlebars, enough to run examples: it fills in
    the first [{{name}}] placeholder. *)
Definition substitute (content : string) (variables : ProjectInfo.t) : option string :=
  Some (Js.replace "{{name}}" (ProjectInfo.name variables) content).

Definition demoInfo : ProjectInfo.t :=
  ProjectInfo.mk "demo-cli" "Demo cli" "d" "A" "ISC" "a@example.org".

(** A file system with just the directory the command is run from. *)
Definition home : World := mkWorld {[ ["home"] := NDir ]} [] 18.

Definition scaffold : tnode :=
  TDir [("gitignore", TFile 420 "node_modules {{name}}");
        ("index.mjs.template", TFile 420 "#!/usr/bin/env node // {{name}}");
        ("package.json.template", TFile 420 "{ }");
        ("src", TDir [("logo.png", TFile 420 "PNG")])].

(** Stand-ins for the outside world. *)
Definition noExec (command : string) (cwd : path) (fs : gmap path node)
  : gmap path node * bool := (fs, true).

Definition gitConfigToy (key : string) : option string :=
  if String.eqb key "user.name" then Some "A" else Some "a@example.org".

Definition templateManifest : list (string * json) :=
  [("name", JString "cli-app");
   ("version", JString "1.0.0");
   ("description", JString "");
   ("main", JString "index.mjs");
   ("bin", JObject [("cli-app", JString "index.mjs")]);
   ("scripts", JObject [("start", JString "node index.mjs"); ("test", JString "jest")]);
   ("license", JString "MIT");
   ("dependencies", JObject [("commander", JString "^11.0.0")])].

(** Reads any text that opens an object as the manifest of the
    template. *)
Definition parseToy (data : string) : option json :=
  if Js.startsWith "{" data then Some (JObject templateManifest) else None.

(** The same, and any text that opens an array as the empty array. *)
Definition parseArrayToy (data : string) : option json :=
  if Js.startsWith "[" data then Some (JArray []) else parseToy data.

Definition quote (s : string) : string :=
  String (ascii_of_nat 34) s +:+ String (ascii_of_nat 34) EmptyString.

Fixpoint joinWith (sep : string) (parts : list string) : string :=
  match parts with
  | [] => EmptyString
  | [s] => s
  | s :: rest => s +:+ sep +:+ joinWith sep rest
  end.

Fixpoint stringifyToy (v : json) : string :=
  match v with
  | JNull => "null"
  | JBool b => if b then "true" else "false"
  | JNumber literal => literal
  | JString s => quote s
  | JArray items => "[" +:+ joinWith "," (map stringifyToy items) +:+ "]"
  | JObject members =>
      "{" +:+ joinWith "," (map (fun m => quote (fst m) +:+ ":" +:+ stringifyToy (snd m))
                               members) +:+ "}"
  end.

Definition cli (name : option string) (options : Options) (template : tnode) (w : World)
  : prompt (World * result Steps) :=
  createCommand substitute parseToy stringifyToy noExec gitConfigToy
    name options ["home"] template w.

Definition quiet : Options := {| yes := true; git := false; install := false |}.

(** The directory of the project is there already, and empty. *)
Definition homeWithEmptyTarget : World :=
  mkWorld (<[ ["home"; "demo-cli"] := NDir ]> {[ ["home"] := NDir ]}) [] 18.

(** The project directory holds a manifest that is a JSON array. *)
Definition homeWithArrayManifest : World :=
  mkWorld (<[ ["home"; "demo-cli"; "package.json"] := NFile 420 "[]" ]>
             (<[ ["home"; "demo-cli"] := NDir ]> {[ ["home"] := NDir ]})) [] 18.


(** The project as the walk leaves it. *)
Definition materializedProject : World :=
  fst (copyTemplate substitute scaffold ["home"; "demo-cli"] demoInfo home).

Definition resultOf (r : option (World * result Steps * list string))
  : option (result Steps) := (fun o => snd (fst o)) <$> r.

Definition worldOf (r : option (World * result Steps * list string)) : World :=
  match r with
  | Some (w, _, _) => w
  | None => home
  end.

(** * Properties *)

(** ** Metadata resolver *)

Lemma truthy_or (v : option string) (alt : string) :
  Js.truthy v = None -> Js.or v alt = alt.
Proof. unfold Js.or. now intros ->. Qed.

Lemma run_pbind {A B : Type} (p : prompt A) (f : A -> prompt B)
      (answers : list string) :
  run (pbind p f) answers =
  match run p answers with
  | Some (a, rest) => run (f a) rest
  | None => None
  end.
Proof.
  revert answers. induction p as [a | m d v k IH | m c d k IH]; intros answers; simpl.
  - reflexivity.
  - destruct (submit d v answers) as [[s rest] |]; [apply IH | reflexivity].
  - destruct (choose c d answers) as [[s rest] |]; [apply IH | reflexivity].
Qed.

(** A line accepted by a validated [input] passes the validation. *)
Lemma submit_valid (d : option string) (v : string -> bool)
      (answers rest : list string) (s : string) :
  submit d v answers = Some (s, rest) -> v s = true.
Proof.
  induction answers as [| a answers IH]; simpl; [discriminate |].
  destruct (v (Js.or (Some a) (Js.or d ""))) eqn:E.
  - intros [= <- _]. exact E.
  - exact IH.
Qed.

(** X1: when no name is given on the command line and the prompts are
    not skipped, the resolved name passes the charset test of the name
    prompt: letters, digits, hyphen and underscore only, not empty. *)
Lemma getProjectInfo_prompted_name_valid (options : Options) (gitUser : GitUser)
      (answers rest : list string) (projectInfo : ProjectInfo.t) :
  yes options = false ->
  run (getProjectInfo None options gitUser) answers = Some (projectInfo, rest) ->
  validName (ProjectInfo.name projectInfo) = true.
Proof.
  intros Hyes. unfold getProjectInfo. rewrite Hyes. simpl.
  destruct (submit None validName answers) as [[n r1] |] eqn:E1; [| discriminate].
  apply submit_valid in E1.
  destruct (submit _ _ r1) as [[t r2] |]; [| discriminate].
  destruct (submit _ _ r2) as [[d r3] |]; [| discriminate].
  destruct (submit _ _ r3) as [[a r4] |]; [| discriminate].
  destruct (choose _ _ r4) as [[l r5] |]; [| discriminate].
  intros [= <- _]. exact E1.
Qed.

(** However the name is resolved, it is not empty. *)
Lemma getProjectInfo_name_nonempty (name : option string) (options : Options)
      (gitUser : GitUser) (answers rest : list string) (projectInfo : ProjectInfo.t) :
  run (getProjectInfo name options gitUser) answers = Some (projectInfo, rest) ->
  ProjectInfo.name projectInfo <> "".
Proof.
  unfold getProjectInfo. destruct (yes options).
  - simpl. intros [= <- _]. simpl. unfold Js.or.
    destruct name as [[| c n] |]; simpl; discriminate.
  - rewrite run_pbind.
    destruct (Js.truthy name) as [n |] eqn:Hname; simpl.
    + assert (n <> "") as Hn by (destruct name as [[| c n'] |]; simpl in Hname; congruence).
      destruct (submit _ _ answers) as [[t r2] |]; [| discriminate].
      destruct (submit _ _ r2) as [[d r3] |]; [| discriminate].
      destruct (submit _ _ r3) as [[a r4] |]; [| discriminate].
      destruct (choose _ _ r4) as [[l r5] |]; [| discriminate].
      now intros [= <- _].
    + destruct (submit None validName answers) as [[n r1] |] eqn:E1; [| discriminate].
      apply submit_valid in E1.
      destruct (submit _ _ r1) as [[t r2] |]; [| discriminate].
      destruct (submit _ _ r2) as [[d r3] |]; [| discriminate].
      destruct (submit _ _ r3) as [[a r4] |]; [| discriminate].
      destruct (choose _ _ r4) as [[l r5] |]; [| discriminate].
      intros [= <- _]. simpl. now destruct n.
Qed.

(** Away from a leading hyphen the title of the code is the title of
    the specification. *)
Lemma defaultTitle_spec (n : string) :
  Js.startsWith "-" n = false -> defaultTitle n = spec_derived_title n.
Proof.
  destruct n as [| c n]; [reflexivity |].
  unfold defaultTitle, spec_derived_title, spec_capitalize. simpl.
  destruct (Ascii.eqb c "-") eqn:E.
  - apply Ascii.eqb_eq in E. subst c. destruct n; discriminate.
  - reflexivity.
Qed.

Example defaultTitle_my_app : defaultTitle "my-app" = "My app".
Proof. reflexivity. Qed.

(** Interactive mode, name given, every prompt confirmed with an empty
    line: the title is the derived default. *)
Example getProjectInfo_my_app_interactive :
  run (getProjectInfo (Some "my-app") {| yes := false; git := true; install := true |}
         {| git_name := "A"; git_email := "a@example.org" |}) [""; ""; ""; ""]
  = Some (ProjectInfo.mk "my-app" "My app" "" "A" "MIT" "a@example.org", []).
Proof. reflexivity. Qed.

(** C9: with the skip-prompts flag and no name argument, resolution
    finishes at once, without asking anything, with the fallback name
    cli-app, an empty description, license MIT and a non-empty title. *)
Theorem getProjectInfo_yes_defaults (name : option string) (options : Options)
        (gitUser : GitUser) :
  yes options = true ->
  Js.truthy name = None ->
  exists projectInfo,
    getProjectInfo name options gitUser = Done projectInfo
    /\ suspends (getProjectInfo name options gitUser) = false
    /\ ProjectInfo.name projectInfo = "cli-app"
    /\ ProjectInfo.description projectInfo = ""
    /\ ProjectInfo.license projectInfo = "MIT"
    /\ ProjectInfo.title projectInfo = "Cli app"
    /\ ProjectInfo.title projectInfo <> "".
Proof.
  intros Hyes Hname. unfold getProjectInfo. rewrite Hyes.
  rewrite (truthy_or _ _ Hname). eexists. split; [reflexivity |].
  repeat split. discriminate.
Qed.

Lemma getProjectInfo_yes_defaults_witness :
  exists projectInfo,
    getProjectInfo None {| yes := true; git := true; install := true |}
      {| git_name := "A"; git_email := "" |} = Done projectInfo
    /\ suspends (getProjectInfo None {| yes := true; git := true; install := true |}
                   {| git_name := "A"; git_email := "" |}) = false
    /\ ProjectInfo.name projectInfo = "cli-app"
    /\ ProjectInfo.description projectInfo = ""
    /\ ProjectInfo.license projectInfo = "MIT"
    /\ ProjectInfo.title projectInfo = "Cli app"
    /\ ProjectInfo.title projectInfo <> "".
Proof.
  apply (getProjectInfo_yes_defaults None
           {| yes := true; git := true; install := true |}
           {| git_name := "A"; git_email := "" |}); reflexivity.
Defined.

(** C10: the derived title keeps a leading hyphen, where the
    specification's transform turns it into a space: the hyphens are
    only replaced in [n.slice(1)]. Name [-app], skip-prompts flag. *)
Theorem defaultTitle_leading_hyphen_kept :
  defaultTitle "-app" = "-app"
  /\ spec_derived_title "-app" = " app"
  /\ validName "-app" = true
  /\ (forall gitUser,
        getProjectInfo (Some "-app") {| yes := true; git := true; install := true |} gitUser
        = Done (ProjectInfo.mk "-app" "-app" "" (git_name gitUser) "MIT"
                  (git_email gitUser)))
  /\ (forall gitUser,
        run (getProjectInfo None {| yes := false; git := true; install := true |} gitUser)
            ["-app"; ""; ""; ""; ""]
        = Some (ProjectInfo.mk "-app" "-app" "" (git_name gitUser) "MIT"
                  (git_email gitUser), [])).
Proof.
  repeat split; try reflexivity.
  intros [gname gemail]. destruct gname; reflexivity.
Qed.

(** ** Strings and paths *)

Lemma startsWith_refl (s : string) : Js.startsWith s s = true.
Proof.
  unfold Js.startsWith. induction s as [| c s IH]; simpl; [reflexivity |].
  destruct (ascii_dec c c); [exact IH | congruence].
Qed.

Lemma includes_slice (pat : string) (k : nat) (s : string) :
  Js.startsWith pat (Js.slice k s) = true -> Js.includes pat s = true.
Proof.
  revert s. induction k as [| k IH]; intros s.
  - destruct s; simpl; intros ->; reflexivity.
  - destruct s as [| c s]; simpl Js.slice.
    + simpl. now intros ->.
    + intros H. apply IH in H. simpl. rewrite H. apply orb_true_r.
Qed.

Lemma endsWith_includes (pat s : string) :
  Js.endsWith pat s = true -> Js.includes pat s = true.
Proof.
  unfold Js.endsWith. intros H. apply andb_prop in H as [_ H].
  apply String.eqb_eq in H. apply (includes_slice pat (Js.strlen s - Js.strlen pat)).
  rewrite H. apply startsWith_refl.
Qed.

(** [replace] leaves a string without the pattern as it is. *)
Lemma replace_absent (pat rep s : string) :
  Js.includes pat s = false -> Js.replace pat rep s = s.
Proof.
  induction s as [| c s IH]; simpl; intros H; apply orb_false_elim in H as [H1 H2].
  - now rewrite H1.
  - rewrite H1. now rewrite IH.
Qed.

(** A charset-valid name is a single path segment. *)
Lemma validName_segments (n : string) :
  Js.forallb_string nameChar n = true -> segments n = [n].
Proof.
  induction n as [| c n IH]; simpl; [reflexivity |].
  intros H. apply andb_prop in H as [Hc Hn].
  destruct (Ascii.eqb c "/") eqn:E.
  - apply Ascii.eqb_eq in E. subst c. discriminate.
  - now rewrite (IH Hn).
Qed.

Lemma validName_resolve (cwd : path) (n : string) :
  validName n = true -> path_resolve cwd n = cwd ++ [n].
Proof.
  unfold validName, path_resolve, Js.startsWith. intros H.
  apply andb_prop in H as [Hne Hchars].
  destruct n as [| c n]; [discriminate |].
  pose proof (validName_segments _ Hchars) as Hseg.
  simpl in Hchars. apply andb_prop in Hchars as [Hc Hn].
  assert (c <> "/"%char /\ c <> "."%char) as [Hslash Hdot]
      by (split; intros ->; discriminate).
  assert (String.prefix "/" (String c n) = false) as ->.
  { change (String.prefix "/" (String c n))
      with (if ascii_dec "/" c then String.prefix "" n else false).
    destruct (ascii_dec "/" c); [congruence | reflexivity]. }
  rewrite Hseg. simpl. unfold enter.
  assert (forall s, String.eqb (String c n) (String "." s) = false) as Hd.
  { intros s. apply String.eqb_neq. congruence. }
  simpl String.eqb at 1. rewrite (Hd ""), (Hd "."). reflexivity.
Qed.

Lemma chain_app (base l1 l2 : path) :
  chain base (l1 ++ l2) = chain base l1 ++ chain (base ++ l1) l2.
Proof.
  revert base. induction l1 as [| c l1 IH]; intros base; simpl.
  - now rewrite app_nil_r.
  - rewrite IH. now rewrite <- app_assoc.
Qed.

Lemma mkdirs_present (todo rest : list path) (fs : gmap path node) :
  Forall (fun p => fs !! p = Some NDir) todo ->
  mkdirs (todo ++ rest) fs = mkdirs rest fs.
Proof.
  induction 1 as [| p todo Hp _ IH]; simpl; [reflexivity |]. now rewrite Hp.
Qed.

(** In a current directory that exists, with a charset-valid name that
    is not taken, the project directory can be created. *)
Lemma canCreate_fresh (cwd : path) (n : string) (w : World) :
  validName n = true ->
  Forall (fun p => files w !! p = Some NDir) (chain [] cwd) ->
  existsSync (path_resolve cwd n) w = false ->
  canCreate (path_resolve cwd n) w = true.
Proof.
  intros Hn Hcwd. rewrite (validName_resolve _ _ Hn).
  unfold existsSync, canCreate. rewrite chain_app, (mkdirs_present _ _ _ Hcwd).
  simpl. destruct cwd as [| c cwd]; simpl;
    destruct (files w !! _) as [[| ? ?] |]; try discriminate; reflexivity.
Qed.

(** ** Reasoning about [io] computations *)

Lemma bind_value {A B : Type} (m : io A) (f : A -> io B) (w w' : World) (b : B) :
  (m ≫= f) w = (w', Value b) ->
  exists w1 a, m w = (w1, Value a) /\ f a w1 = (w', Value b).
Proof.
  unfold mbind, io_bind. destruct (m w) as [w1 [a | e | c]]; intros H.
  - eauto.
  - discriminate.
  - discriminate.
Qed.

Lemma bind_step {A B : Type} (m : io A) (f : A -> io B) (w w1 : World) (a : A) :
  m w = (w1, Value a) -> (m ≫= f) w = f a w1.
Proof. unfold mbind, io_bind. now intros ->. Qed.

Section Keeps.

Context {A B : Type} (q : path).

Lemma keeps_ret (a : A) : keeps q (mret a : io A).
Proof. intros w w' r [= <- _]. reflexivity. Qed.

Lemma keeps_throw (e : string) : keeps q (throw e : io A).
Proof. intros w w' r [= <- _]. reflexivity. Qed.

Lemma keeps_bind (m : io A) (f : A -> io B) :
  keeps q m -> (forall a, keeps q (f a)) -> keeps q (m ≫= f).
Proof.
  intros Hm Hf w w' r. unfold mbind, io_bind.
  destruct (m w) as [w1 [a | e | c]] eqn:E; intros H.
  - rewrite (Hf a _ _ _ H). exact (Hm _ _ _ E).
  - injection H as <- _. exact (Hm _ _ _ E).
  - injection H as <- _. exact (Hm _ _ _ E).
Qed.

Lemma keeps_throw_bind (e : string) (f : A -> io B) : keeps q (throw e ≫= f).
Proof. intros w w' r [= <- _]. reflexivity. Qed.

Lemma keeps_tryCatch (body : io A) (handler : string -> io A) :
  keeps q body -> (forall e, keeps q (handler e)) -> keeps q (tryCatch body handler).
Proof.
  intros Hb Hh w w' r. unfold tryCatch.
  destruct (body w) as [w1 [a | e | c]] eqn:E; intros H.
  - injection H as <- _. exact (Hb _ _ _ E).
  - rewrite (Hh e _ _ _ H). exact (Hb _ _ _ E).
  - injection H as <- _. exact (Hb _ _ _ E).
Qed.

End Keeps.

Lemma keeps_print (q : path) (l : level) (message : string) :
  keeps q (logger.print l message).
Proof. intros w w' r [= <- _]. reflexivity. Qed.

Lemma keeps_error (q : path) (message : string) (error : option string) :
  keeps q (logger.error message error).
Proof. intros w w' r. destruct error; intros [= <- _]; reflexivity. Qed.

Lemma mkdirs_keeps (q : path) (todo : list path) (fs fs' : gmap path node) :
  mkdirs todo fs = Some fs' -> q ∉ todo -> fs' !! q = fs !! q.
Proof.
  revert fs. induction todo as [| p todo IH]; intros fs; simpl.
  - now intros [= ->].
  - intros H Hq. apply not_elem_of_cons in Hq as [Hne Hq].
    destruct (fs !! p) as [[| m d] |] eqn:E.
    + now apply IH.
    + discriminate.
    + rewrite (IH _ H Hq). now apply lookup_insert_ne.
Qed.

Lemma keeps_ensureDir (q p : path) : q ∉ chain [] p -> keeps q (ensureDir p).
Proof.
  intros Hq w w' r. unfold ensureDir.
  destruct (mkdirs (chain [] p) (files w)) as [fs |] eqn:E; intros [= <- _].
  - simpl. now apply (mkdirs_keeps q) in E.
  - reflexivity.
Qed.

Lemma keeps_writeFile (q p : path) (data : string) : q <> p -> keeps q (writeFile p data).
Proof.
  intros Hq w w' r. unfold writeFile. destruct p as [| c p]; [now intros [= <- _] |].
  destruct (lookupNode (files w) (dirname (c :: p))) as [[| ? ?] |];
    [| now intros [= <- _] ..].
  destruct (files w !! (c :: p)) as [[| ? ?] |]; intros [= <- _]; simpl;
    try reflexivity; now apply lookup_insert_ne.
Qed.

Lemma keeps_chmod (q p : path) (mode : Z) : q <> p -> keeps q (chmod p mode).
Proof.
  intros Hq w w' r. unfold chmod.
  destruct (lookupNode (files w) p) as [[| ? ?] |]; intros [= <- _]; simpl;
    try reflexivity; now apply lookup_insert_ne.
Qed.

Lemma keeps_copy (q dest : path) (src : tnode) :
  q <> dest -> q ∉ chain [] (dirname dest) -> keeps q (copy src dest).
Proof.
  intros Hq Hc w w' r. unfold copy.
  assert (forall fs, mkdirs (chain [] (dirname dest)) (files w) = Some fs ->
                     fs !! q = files w !! q) as Hfs
      by (intros fs E; now apply (mkdirs_keeps q) in E).
  destruct (lookupNode (files w) dest) as [[| ? ?] |];
    [now intros [= <- _] | |];
    (destruct (mkdirs (chain [] (dirname dest)) (files w)) as [fs |];
     [| now intros [= <- _]]);
    (destruct src; intros [= <- _]; simpl;
     [rewrite lookup_insert_ne by congruence |..]; now apply Hfs).
Qed.

Ltac io_cases :=
  let H := fresh in
  intros ? ? ? H; repeat case_match; simplify_eq.

Section Termination.

Context {A B : Type}.

Lemma noexit_ret (a : A) : noexit (mret a : io A).
Proof. intros w w' c H. discriminate H. Qed.

Lemma noexit_throw (e : string) : noexit (throw e : io A).
Proof. intros w w' c H. discriminate H. Qed.

Lemma noexit_bind (m : io A) (f : A -> io B) :
  noexit m -> (forall a, noexit (f a)) -> noexit (m ≫= f).
Proof.
  intros Hm Hf w w' c. unfold mbind, io_bind.
  destruct (m w) as [w1 [a | e | c1]] eqn:E.
  - apply Hf.
  - discriminate.
  - now apply Hm in E.
Qed.

Lemma noexit_tryCatch (body : io A) (handler : string -> io A) :
  noexit body -> (forall e, noexit (handler e)) -> noexit (tryCatch body handler).
Proof.
  intros Hb Hh w w' c. unfold tryCatch.
  destruct (body w) as [w1 [a | e | c1]] eqn:E.
  - discriminate.
  - apply Hh.
  - now apply Hb in E.
Qed.

Lemma returns_noexit (m : io A) : returns m -> noexit m.
Proof. intros Hm w w' c H. destruct (Hm w) as (w1 & a & E). congruence. Qed.

Lemma returns_ret (a : A) : returns (mret a : io A).
Proof. intros w. now exists w, a. Qed.

Lemma returns_bind (m : io A) (f : A -> io B) :
  returns m -> (forall a, returns (f a)) -> returns (m ≫= f).
Proof.
  intros Hm Hf w. destruct (Hm w) as (w1 & a & E).
  rewrite (bind_step _ _ _ _ _ E). apply Hf.
Qed.

Lemma returns_tryCatch (body : io A) (handler : string -> io A) :
  noexit body -> (forall e, returns (handler e)) -> returns (tryCatch body handler).
Proof.
  intros Hb Hh w. unfold tryCatch.
  destruct (body w) as [w1 [a | e | c]] eqn:E.
  - now exists w1, a.
  - apply Hh.
  - now apply Hb in E.
Qed.

End Termination.

Lemma returns_print (l : level) (message : string) : returns (logger.print l message).
Proof. intros w. eexists _, tt. reflexivity. Qed.

Lemma noexit_ensureDir (p : path) : noexit (ensureDir p).
Proof. unfold ensureDir. io_cases. Qed.

Lemma noexit_writeFile (p : path) (data : string) : noexit (writeFile p data).
Proof. unfold writeFile. io_cases. Qed.

Lemma noexit_chmod (p : path) (mode : Z) : noexit (chmod p mode).
Proof. unfold chmod. io_cases. Qed.

Lemma noexit_copy (src : tnode) (dest : path) : noexit (copy src dest).
Proof. unfold copy. io_cases. Qed.

Lemma noexit_readFile (file : tnode) : noexit (readFile file).
Proof. destruct file; simpl; auto using @noexit_ret, @noexit_throw. Qed.

Lemma noexit_readdir (template : tnode) : noexit (readdir template).
Proof. destruct template; simpl; auto using @noexit_ret, @noexit_throw. Qed.

Lemma returns_info (message : string) : returns (logger.info message).
Proof. apply returns_print. Qed.

Lemma returns_success (message : string) : returns (logger.success message).
Proof. apply returns_print. Qed.

Lemma returns_warning (message : string) : returns (logger.warning message).
Proof. apply returns_print. Qed.

Lemma returns_error (message : string) (error : option string) :
  returns (logger.error message error).
Proof. intros w. destruct error; eexists _, tt; reflexivity. Qed.

Create HintDb io.

#[local] Hint Resolve returns_info returns_success returns_warning returns_error : io.

#[local] Hint Resolve noexit_ret noexit_throw noexit_bind noexit_tryCatch
  returns_noexit returns_ret returns_bind returns_tryCatch returns_print
  noexit_ensureDir noexit_writeFile noexit_chmod noexit_copy
  noexit_readFile noexit_readdir : io.

(** ** The template walk *)

Lemma writeSet_eq (template : tnode) (targetPath : path) :
  writeSet template targetPath =
  chain [] targetPath ++
  match template with
  | TDir files => writeSetEntries files targetPath
  | _ => []
  end.
Proof.
  destruct template as [| entries |]; simpl; try reflexivity.
  f_equal. induction entries as [| [name file] rest IH]; simpl; [reflexivity |].
  now rewrite IH.
Qed.

Section Walk.

Variable handlebars : string -> ProjectInfo.t -> option string.
Variable variables : ProjectInfo.t.

Lemma forOf_eq (entries : list (string * tnode)) (targetPath : path) :
  (fix forOf (files : list (string * tnode)) : io bool :=
     match files with
     | [] => mret true
     | (name, file) :: rest =>
         copyEntry handlebars
           (fun destPath => copyTemplate handlebars file destPath variables)
           name file targetPath variables;;
         forOf rest
     end) entries
  = copyEntries handlebars entries targetPath variables.
Proof.
  induction entries as [| [name file] rest IH]; simpl; [reflexivity |].
  now rewrite IH.
Qed.

(** [copyTemplate], one level unfolded: lines 25-64 of the source. *)
Lemma copyTemplate_eq (template : tnode) (targetPath : path) (w : World) :
  copyTemplate handlebars template targetPath variables w =
  tryCatch (ensureDir targetPath;;
            files ← readdir template;
            copyEntries handlebars files targetPath variables)
           copyFailed w.
Proof.
  destruct template as [mode data | entries | d]; simpl.
  - unfold tryCatch, mbind, io_bind.
    destruct (ensureDir targetPath w) as [w1 [[] | e | c]]; reflexivity.
  - rewrite forOf_eq. unfold tryCatch, mbind, io_bind.
    destruct (ensureDir targetPath w) as [w1 [[] | e | c]]; reflexivity.
  - unfold tryCatch, mbind, io_bind.
    destruct (ensureDir targetPath w) as [w1 [[] | e | c]]; reflexivity.
Qed.

Lemma noexit_render (content : string) : noexit (render handlebars content variables).
Proof. unfold render. destruct (handlebars content variables); auto with io. Qed.

Lemma returns_copyFailed (e : string) : returns (copyFailed e).
Proof. unfold copyFailed. auto with io. Qed.

Lemma noexit_copyEntry (recurse : path -> io bool) (name : string) (file : tnode)
      (targetPath : path) :
  (forall dest, noexit (recurse dest)) ->
  noexit (copyEntry handlebars recurse name file targetPath variables).
Proof.
  intros Hrec. unfold copyEntry.
  destruct (isDirectory file); [auto with io |].
  destruct (Js.endsWith ".template" name).
  - apply noexit_bind; [auto with io | intros content].
    apply noexit_bind; [apply noexit_render | intros processed].
    apply noexit_bind; [auto with io | intros _].
    apply noexit_bind; [destruct (String.eqb _ "index.mjs"); auto with io | intros _].
    auto with io.
  - destruct (String.eqb name "gitignore").
    + apply noexit_bind; [auto with io | intros content].
      apply noexit_bind; [auto with io | intros _]. auto with io.
    + apply noexit_bind; [auto with io | intros _]. auto with io.
Qed.

Lemma noexit_copyEntries (files : list (string * tnode)) (targetPath : path) :
  Forall (fun e => forall dest,
              returns (copyTemplate handlebars (snd e) dest variables)) files ->
  noexit (copyEntries handlebars files targetPath variables).
Proof.
  induction 1 as [| [name file] rest Hfile _ IH]; simpl; [auto with io |].
  apply noexit_bind; [| intros _; exact IH].
  apply noexit_copyEntry. intros dest. apply returns_noexit, Hfile.
Qed.

(** [copyTemplate] catches whatever its body throws: it always
    returns a boolean to its caller. *)
Lemma copyTemplate_returns (template : tnode) (targetPath : path) :
  returns (copyTemplate handlebars template targetPath variables).
Proof.
  revert targetPath.
  induction template as [mode data | entries IH | d] using tnode_ind;
    intros targetPath w; rewrite copyTemplate_eq;
    apply returns_tryCatch; auto using returns_copyFailed;
    apply noexit_bind; auto with io; intros [].
  - intros w0 w1 c. discriminate.
  - intros w0 w1 c. simpl. unfold mbind, io_bind, mret, io_ret.
    apply noexit_copyEntries. exact IH.
  - intros w0 w1 c. discriminate.
Qed.

Lemma copyTemplate_TDir (entries : list (string * tnode)) (targetPath : path)
      (w : World) :
  copyTemplate handlebars (TDir entries) targetPath variables w =
  tryCatch (ensureDir targetPath;;
            copyEntries handlebars entries targetPath variables)
           copyFailed w.
Proof.
  rewrite copyTemplate_eq. unfold tryCatch, mbind, io_bind.
  destruct (ensureDir targetPath w) as [w1 [[] | e | c]]; reflexivity.
Qed.

(** *** What a walk leaves alone *)

Lemma keeps_ext {A : Type} (q : path) (m m' : io A) :
  (forall w, m w = m' w) -> keeps q m' -> keeps q m.
Proof. intros E H w w' r. rewrite E. apply H. Qed.

Lemma keeps_copyFailed (q : path) (e : string) : keeps q (copyFailed e).
Proof.
  unfold copyFailed. apply keeps_bind; [apply keeps_error | intros _; apply keeps_ret].
Qed.

Lemma keeps_copyEntry (q : path) (recurse : path -> io bool)
      (ws : path -> list path) (name : string) (file : tnode) (targetPath : path) :
  (forall dest, q ∉ ws dest -> keeps q (recurse dest)) ->
  q ∉ writeSetEntry ws name file targetPath ->
  keeps q (copyEntry handlebars recurse name file targetPath variables).
Proof.
  intros Hrec. unfold writeSetEntry, copyEntry.
  destruct (isDirectory file).
  { intros Hq. apply keeps_bind; [now apply Hrec | intros _; apply keeps_ret]. }
  destruct (Js.endsWith ".template" name).
  { intros Hq. apply not_elem_of_cons in Hq as [Hq _].
    apply keeps_bind; [destruct file; simpl; auto using @keeps_ret, @keeps_throw |].
    intros content. apply keeps_bind.
    { unfold render. destruct (handlebars content variables);
        auto using @keeps_ret, @keeps_throw. }
    intros processed. apply keeps_bind; [now apply keeps_writeFile | intros _].
    apply keeps_bind; [| intros _; apply keeps_print].
    destruct (String.eqb _ "index.mjs"); [now apply keeps_chmod | apply keeps_ret]. }
  destruct (String.eqb name "gitignore").
  { intros Hq. apply not_elem_of_cons in Hq as [Hq _].
    apply keeps_bind; [destruct file; simpl; auto using @keeps_ret, @keeps_throw |].
    intros content. apply keeps_bind; [now apply keeps_writeFile | intros _].
    apply keeps_print. }
  intros Hq. apply not_elem_of_cons in Hq as [Hq Hc].
  apply keeps_bind; [now apply keeps_copy | intros _; apply keeps_print].
Qed.

Lemma keeps_copyEntries_from (q : path) (files : list (string * tnode))
      (targetPath : path) :
  Forall (fun e => forall dest, q ∉ writeSet (snd e) dest ->
              keeps q (copyTemplate handlebars (snd e) dest variables)) files ->
  q ∉ writeSetEntries files targetPath ->
  keeps q (copyEntries handlebars files targetPath variables).
Proof.
  induction 1 as [| [name file] rest Hfile _ IH]; simpl; intros Hq.
  - apply keeps_ret.
  - apply not_elem_of_app in Hq as [Hq1 Hq2].
    apply keeps_bind; [| intros _; now apply IH].
    now apply (keeps_copyEntry q _ (writeSet file)).
Qed.

(** A walk changes nothing outside its write set. *)
Lemma keeps_copyTemplate (q : path) (template : tnode) (targetPath : path) :
  q ∉ writeSet template targetPath ->
  keeps q (copyTemplate handlebars template targetPath variables).
Proof.
  revert targetPath.
  induction template as [mode data | entries IH | d] using tnode_ind;
    intros targetPath; rewrite writeSet_eq; intros Hq;
    apply not_elem_of_app in Hq as [Hq1 Hq2].
  - apply (keeps_ext _ _ _ (copyTemplate_eq _ _)).
    apply keeps_tryCatch; [| apply keeps_copyFailed].
    apply keeps_bind; [now apply keeps_ensureDir | intros _].
    apply keeps_throw_bind.
  - apply (keeps_ext _ _ _ (copyTemplate_TDir _ _)).
    apply keeps_tryCatch; [| apply keeps_copyFailed].
    apply keeps_bind; [now apply keeps_ensureDir | intros _].
    now apply keeps_copyEntries_from.
  - apply (keeps_ext _ _ _ (copyTemplate_eq _ _)).
    apply keeps_tryCatch; [| apply keeps_copyFailed].
    apply keeps_bind; [now apply keeps_ensureDir | intros _].
    apply keeps_throw_bind.
Qed.

Lemma keeps_copyEntries (q : path) (files : list (string * tnode))
      (targetPath : path) :
  q ∉ writeSetEntries files targetPath ->
  keeps q (copyEntries handlebars files targetPath variables).
Proof.
  apply keeps_copyEntries_from. apply Forall_forall.
  intros e _ dest. apply keeps_copyTemplate.
Qed.

(** *** Cutting a walk at an entry *)

Lemma copyEntries_app (before after : list (string * tnode)) (targetPath : path)
      (w w' : World) (b : bool) :
  copyEntries handlebars (before ++ after) targetPath variables w = (w', Value b) ->
  exists w1,
    copyEntries handlebars before targetPath variables w = (w1, Value true)
    /\ copyEntries handlebars after targetPath variables w1 = (w', Value b).
Proof.
  revert w. induction before as [| [name file] rest IH]; simpl; intros w H.
  - now exists w.
  - apply bind_value in H as (w0 & [] & E0 & H).
    apply IH in H as (w1 & E1 & E2). exists w1. split; [| exact E2].
    now rewrite (bind_step _ _ _ _ _ E0).
Qed.

Lemma copyEntries_snoc (before : list (string * tnode)) (name : string) (file : tnode)
      (targetPath : path) (w w1 w2 : World) :
  copyEntries handlebars before targetPath variables w = (w1, Value true) ->
  copyEntry handlebars (fun dest => copyTemplate handlebars file dest variables)
            name file targetPath variables w1 = (w2, Value tt) ->
  copyEntries handlebars (before ++ [(name, file)]) targetPath variables w
  = (w2, Value true).
Proof.
  revert w. induction before as [| [n f] rest IH]; simpl; intros w H1 H2.
  - injection H1 as ->. now rewrite (bind_step _ _ _ _ _ H2).
  - apply bind_value in H1 as (w0 & [] & E0 & H1).
    rewrite (bind_step _ _ _ _ _ E0). now apply IH.
Qed.

(** A walk that returned [true] went through its whole listing. *)
Lemma copyTemplate_true (entries : list (string * tnode)) (targetPath : path)
      (w w' : World) :
  copyTemplate handlebars (TDir entries) targetPath variables w = (w', Value true) ->
  exists w0,
    ensureDir targetPath w = (w0, Value tt)
    /\ copyEntries handlebars entries targetPath variables w0 = (w', Value true).
Proof.
  rewrite copyTemplate_TDir. unfold tryCatch.
  destruct ((ensureDir targetPath;; copyEntries handlebars entries targetPath variables) w)
    as [w1 [b | e | c]] eqn:E.
  - intros [= <- ->]. apply bind_value in E as (w0 & [] & E0 & E1). eauto.
  - unfold copyFailed, mbind, io_bind. simpl. discriminate.
  - discriminate.
Qed.

Lemma copyTemplate_of_entries (entries : list (string * tnode)) (targetPath : path)
      (w w0 w' : World) :
  ensureDir targetPath w = (w0, Value tt) ->
  copyEntries handlebars entries targetPath variables w0 = (w', Value true) ->
  copyTemplate handlebars (TDir entries) targetPath variables w = (w', Value true).
Proof.
  intros E0 E1. rewrite copyTemplate_TDir. unfold tryCatch.
  now rewrite (bind_step _ _ _ _ _ E0), E1.
Qed.

End Walk.

(** ** Template materializer *)

Lemma writeFile_value (p : path) (data : string) (w w' : World) :
  writeFile p data w = (w', Value tt) ->
  p <> [] /\ exists m, files w' !! p = Some (NFile m data).
Proof.
  unfold writeFile. destruct p as [| c p]; [discriminate |].
  intros H. split; [discriminate |].
  destruct (lookupNode (files w) (dirname (c :: p))) as [[| ? ?] |]; try discriminate.
  destruct (files w !! (c :: p)) as [[| m ?] |]; try discriminate;
    injection H as <-; simpl; eexists; apply lookup_insert_eq.
Qed.

Lemma writeFile_existing (p : path) (data old : string) (mode : Z) (w w' : World) :
  files w !! p = Some (NFile mode old) ->
  writeFile p data w = (w', Value tt) ->
  files w' !! p = Some (NFile mode data).
Proof.
  unfold writeFile. intros E. destruct p as [| c p]; [discriminate |].
  destruct (lookupNode (files w) (dirname (c :: p))) as [[| ? ?] |]; try discriminate.
  rewrite E. intros [= <-]. simpl. apply lookup_insert_eq.
Qed.

Lemma chmod_value (p : path) (mode m : Z) (data : string) (w w' : World) :
  p <> [] ->
  files w !! p = Some (NFile m data) ->
  chmod p mode w = (w', Value tt) ->
  files w' !! p = Some (NFile mode data).
Proof.
  unfold chmod. destruct p as [| c p]; [congruence |]. intros _ E. simpl.
  rewrite E. intros [= <-]. simpl. apply lookup_insert_eq.
Qed.

Lemma copy_value (src : tnode) (dest : path) (w w' : World) :
  copy src dest w = (w', Value tt) ->
  exists mode data, src = TFile mode data /\ files w' !! dest = Some (NFile mode data).
Proof.
  unfold copy. intros H.
  destruct (lookupNode (files w) dest) as [[| m0 d0] |]; try discriminate;
    (destruct (mkdirs (chain [] (dirname dest)) (files w)) as [fs |]; [| discriminate]);
    (destruct src as [mode data | |]; try discriminate);
    injection H as <-; exists mode, data; (split; [reflexivity |]);
    simpl; apply lookup_insert_eq.
Qed.

Section Materialization.

Variable handlebars : string -> ProjectInfo.t -> option string.
Variable variables : ProjectInfo.t.

(** The iteration for [index.mjs.template]: rendered, written, made
    executable. *)
Lemma copyEntry_entry_point (recurse : path -> io bool) (file : tnode)
      (targetPath : path) (w w' : World) :
  isDirectory file = false ->
  copyEntry handlebars recurse "index.mjs.template" file targetPath variables w
  = (w', Value tt) ->
  exists mode data processed,
    file = TFile mode data
    /\ handlebars data variables = Some processed
    /\ files w' !! path_join targetPath "index.mjs" = Some (NFile 493 processed).
Proof.
  intros Hfile. unfold copyEntry. rewrite Hfile.
  change (Js.replace ".template" "" "index.mjs.template") with "index.mjs".
  change (Js.endsWith ".template" "index.mjs.template") with true.
  change ("index.mjs" =? "index.mjs")%string with true. cbv iota.
  intros H.
  apply bind_value in H as (w1 & content & Hread & H).
  apply bind_value in H as (w2 & processed & Hrender & H).
  apply bind_value in H as (w3 & [] & Hwrite & H).
  apply bind_value in H as (w4 & [] & Hchmod & H).
  destruct file as [mode data | |]; try discriminate.
  injection Hread as <- <-.
  unfold render in Hrender.
  destruct (handlebars data variables) as [processed' |] eqn:Hhb; [| discriminate].
  injection Hrender as <- <-.
  apply writeFile_value in Hwrite as (Hne & m & Hfile3).
  pose proof (chmod_value _ 493 _ _ _ _ Hne Hfile3 Hchmod) as Hfile4.
  injection H as <-. exists mode, data, processed'. auto.
Qed.

(** The iteration for [gitignore]: the content goes to [.gitignore]
    as it is, whatever [handlebars] would make of it. *)
Lemma copyEntry_gitignore (recurse : path -> io bool) (file : tnode)
      (targetPath : path) (w w' : World) :
  isDirectory file = false ->
  copyEntry handlebars recurse "gitignore" file targetPath variables w
  = (w', Value tt) ->
  exists mode data m,
    file = TFile mode data
    /\ files w' !! path_join targetPath ".gitignore" = Some (NFile m data).
Proof.
  intros Hfile. unfold copyEntry. rewrite Hfile.
  change (Js.endsWith ".template" "gitignore") with false.
  change ("gitignore" =? "gitignore")%string with true. cbv iota.
  intros H.
  apply bind_value in H as (w1 & content & Hread & H).
  apply bind_value in H as (w2 & [] & Hwrite & H).
  destruct file as [mode data | |]; try discriminate.
  injection Hread as <- <-.
  apply writeFile_value in Hwrite as (Hne & m & Hfile2).
  injection H as <-. exists mode, data, m. auto.
Qed.

(** The iteration for a file that is neither a template nor the
    ignore file: a copy with the content and the mode of the source,
    under the name [replace] makes of the source name. *)
Lemma copyEntry_verbatim (recurse : path -> io bool) (name : string) (file : tnode)
      (targetPath : path) (w w' : World) :
  isDirectory file = false ->
  Js.endsWith ".template" name = false ->
  String.eqb name "gitignore" = false ->
  copyEntry handlebars recurse name file targetPath variables w = (w', Value tt) ->
  exists mode data,
    file = TFile mode data
    /\ files w' !! path_join targetPath (Js.replace ".template" "" name)
       = Some (NFile mode data).
Proof.
  intros Hfile Hends Hgit. unfold copyEntry. rewrite Hfile, Hends, Hgit.
  intros H. apply bind_value in H as (w1 & [] & Hcopy & H).
  apply copy_value in Hcopy as (mode & data & -> & Hdest).
  injection H as <-. exists mode, data. auto.
Qed.

(** X13: an entry that is no directory, whose name does not contain
    the marker and is not [gitignore], is copied under its own name
    with the content and the mode of the source. *)
Lemma copyEntry_verbatim_same_name (recurse : path -> io bool) (name : string)
      (file : tnode) (targetPath : path) (w w' : World) :
  isDirectory file = false ->
  Js.includes ".template" name = false ->
  String.eqb name "gitignore" = false ->
  copyEntry handlebars recurse name file targetPath variables w = (w', Value tt) ->
  exists mode data,
    file = TFile mode data
    /\ files w' !! path_join targetPath name = Some (NFile mode data).
Proof.
  intros Hfile Hinc Hgit Hrun.
  assert (Js.endsWith ".template" name = false) as Hends.
  { destruct (Js.endsWith ".template" name) eqn:E; [| reflexivity].
    apply endsWith_includes in E. congruence. }
  apply copyEntry_verbatim in Hrun as (mode & data & -> & Hdest); try assumption.
  rewrite (replace_absent _ _ _ Hinc) in Hdest. eauto.
Qed.

(** A directory is walked into the directory [replace] names; where the
    marker does not occur in its name, that is its own name. *)
Lemma copyEntry_directory (name : string) (file : tnode) (targetPath : path)
      (w : World) :
  isDirectory file = true ->
  copyEntry handlebars (fun dest => copyTemplate handlebars file dest variables)
            name file targetPath variables w
  = (fst (copyTemplate handlebars file
            (path_join targetPath (Js.replace ".template" "" name)) variables w),
     Value tt).
Proof.
  intros Hdir. unfold copyEntry. rewrite Hdir.
  destruct (copyTemplate_returns handlebars variables file
              (path_join targetPath (Js.replace ".template" "" name)) w)
    as (w' & b & E).
  unfold mbind, io_bind. now rewrite E.
Qed.

(** Where the entry point holds: after a successful walk of a
    directory that lists the template file [index.mjs.template], the
    generated [index.mjs] is the rendered text with mode 0o755,
    owner-execute bit set, when no entry listed after it can write to
    that path. *)
Lemma copyTemplate_entry_point_executable
        (before after : list (string * tnode)) (file : tnode)
        (targetPath : path) (w w' : World) :
  copyTemplate handlebars
    (TDir (before ++ ("index.mjs.template", file) :: after))
    targetPath variables w = (w', Value true) ->
  isDirectory file = false ->
  path_join targetPath "index.mjs" ∉ writeSetEntries after targetPath ->
  exists mode data processed,
    file = TFile mode data
    /\ handlebars data variables = Some processed
    /\ files w' !! path_join targetPath "index.mjs" = Some (NFile 493 processed)
    /\ ownerExecutable 493 = true.
Proof.
  intros Hrun Hfile Hafter.
  apply copyTemplate_true in Hrun as (w0 & _ & Hrun).
  apply copyEntries_app in Hrun as (w1 & _ & Hrun). simpl in Hrun.
  apply bind_value in Hrun as (w2 & [] & Hentry & Hrest).
  apply copyEntry_entry_point in Hentry as (mode & data & processed & -> & Hhb & Hw2);
    [| exact Hfile].
  exists mode, data, processed. repeat split; try assumption.
  rewrite <- Hw2. exact (keeps_copyEntries _ _ _ _ _ Hafter _ _ _ Hrest).
Qed.

(** C6: a successful walk of a directory that lists a file named
    [gitignore] writes [.gitignore] with exactly the content of the
    source, never rendered: it is there right after the entry's turn,
    and at the end of the walk unless a later entry writes that path. *)
Theorem copyTemplate_gitignore
        (before after : list (string * tnode)) (file : tnode)
        (targetPath : path) (w w' : World) :
  copyTemplate handlebars (TDir (before ++ ("gitignore", file) :: after))
    targetPath variables w = (w', Value true) ->
  isDirectory file = false ->
  exists mode data w1 m,
    file = TFile mode data
    /\ copyTemplate handlebars (TDir (before ++ [("gitignore", file)]))
         targetPath variables w = (w1, Value true)
    /\ copyEntries handlebars after targetPath variables w1 = (w', Value true)
    /\ files w1 !! path_join targetPath ".gitignore" = Some (NFile m data)
    /\ (path_join targetPath ".gitignore" ∉ writeSetEntries after targetPath ->
        files w' !! path_join targetPath ".gitignore" = Some (NFile m data)).
Proof.
  intros Hrun Hfile.
  apply copyTemplate_true in Hrun as (w0 & Hdir & Hrun).
  apply copyEntries_app in Hrun as (w1 & Hbefore & Hrun). simpl in Hrun.
  apply bind_value in Hrun as (w2 & [] & Hentry & Hrest).
  pose proof Hentry as Hentry'.
  apply copyEntry_gitignore in Hentry' as (mode & data & m & -> & Hw2);
    [| exact Hfile].
  exists mode, data, w2, m. repeat split; try assumption.
  - apply (copyTemplate_of_entries _ _ _ _ _ _ _ Hdir).
    eapply copyEntries_snoc; eassumption.
  - intros Hafter. rewrite <- Hw2.
    exact (keeps_copyEntries _ _ _ _ _ Hafter _ _ _ Hrest).
Qed.

End Materialization.

(** ** Concrete runs *)

Lemma copyTemplate_gitignore_witness :
  exists mode data w1 m,
    TFile 420 "node_modules {{name}}" = TFile mode data
    /\ copyTemplate substitute
         (TDir ([] ++ [("gitignore", TFile 420 "node_modules {{name}}")]))
         ["home"; "demo-cli"] demoInfo home = (w1, Value true)
    /\ copyEntries substitute
         [("index.mjs.template", TFile 420 "#!/usr/bin/env node // {{name}}");
          ("package.json.template", TFile 420 "{ }");
          ("src", TDir [("logo.png", TFile 420 "PNG")])]
         ["home"; "demo-cli"] demoInfo w1
       = (fst (copyTemplate substitute scaffold ["home"; "demo-cli"] demoInfo home),
          Value true)
    /\ files w1 !! path_join ["home"; "demo-cli"] ".gitignore" = Some (NFile m data)
    /\ (path_join ["home"; "demo-cli"] ".gitignore"
          ∉ writeSetEntries
              [("index.mjs.template", TFile 420 "#!/usr/bin/env node // {{name}}");
               ("package.json.template", TFile 420 "{ }");
               ("src", TDir [("logo.png", TFile 420 "PNG")])]
              ["home"; "demo-cli"] ->
        files (fst (copyTemplate substitute scaffold ["home"; "demo-cli"] demoInfo home))
          !! path_join ["home"; "demo-cli"] ".gitignore" = Some (NFile m data)).
Proof.
  apply (copyTemplate_gitignore substitute demoInfo
           []
           [("index.mjs.template", TFile 420 "#!/usr/bin/env node // {{name}}");
            ("package.json.template", TFile 420 "{ }");
            ("src", TDir [("logo.png", TFile 420 "PNG")])]
           (TFile 420 "node_modules {{name}}")
           ["home"; "demo-cli"] home).
  - vm_compute. reflexivity.
  - reflexivity.
Defined.

Example scaffold_listed : listed scaffold = true.
Proof. reflexivity. Qed.

Example scaffold_materialized :
  let w' := fst (copyTemplate substitute scaffold ["home"; "demo-cli"] demoInfo home) in
  files w' !! ["home"; "demo-cli"; "index.mjs"]
  = Some (NFile 493 "#!/usr/bin/env node // demo-cli")
  /\ files w' !! ["home"; "demo-cli"; ".gitignore"]
     = Some (NFile 420 "node_modules {{name}}")
  /\ files w' !! ["home"; "demo-cli"; "src"; "logo.png"] = Some (NFile 420 "PNG")
  /\ files w' !! ["home"; "demo-cli"; "gitignore"] = None.
Proof. vm_compute. repeat split. Qed.


(** C5: the listing, in the order of [fs.readdir], holds the template
    of the entry point and, after it, a plain file
    [index.template.mjs] with mode 0o644. Removing the marker gives
    [index.mjs] for both names. The entry point is generated with mode
    0o755, then the plain file is copied over it: the walk returns
    [true] and [index.mjs] ends up with the content and the mode of
    the plain file, owner-execute bit not set. *)
Theorem copyTemplate_entry_point_replaced :
  let entryPoint := ("index.mjs.template", TFile 420 "#!/usr/bin/env node") in
  let plain := ("index.template.mjs", TFile 420 "console.log(1)") in
  let index := path_join ["home"; "demo-cli"] "index.mjs" in
  let generated := copyTemplate substitute (TDir [entryPoint])
                     ["home"; "demo-cli"] demoInfo home in
  let run := copyTemplate substitute (TDir [entryPoint; plain])
               ["home"; "demo-cli"] demoInfo home in
  listed (TDir [entryPoint; plain]) = true
  /\ Js.replace ".template" "" (fst entryPoint) = "index.mjs"
  /\ Js.replace ".template" "" (fst plain) = "index.mjs"
  /\ snd generated = Value true
  /\ files (fst generated) !! index = Some (NFile 493 "#!/usr/bin/env node")
  /\ snd run = Value true
  /\ files (fst run) !! index = Some (NFile 420 "console.log(1)")
  /\ ownerExecutable 493 = true
  /\ ownerExecutable 420 = false.
Proof. vm_compute. repeat split. Qed.

(** C4: the marker is removed wherever it first occurs in a name, not
    only at the end. A plain file [notes.template.txt] is copied to
    [notes.txt] and a directory [conf.template.d] becomes [conf.d];
    neither name ends with the marker. *)
Theorem copyTemplate_strips_marker_inside_names
        (handlebars : string -> ProjectInfo.t -> option string) :
  let run := copyTemplate handlebars
               (TDir [("conf.template.d", TDir [("a.conf", TFile 420 "x")]);
                      ("notes.template.txt", TFile 420 "hello")])
               ["home"; "demo-cli"] demoInfo home in
  Js.endsWith ".template" "notes.template.txt" = false
  /\ Js.endsWith ".template" "conf.template.d" = false
  /\ snd run = Value true
  /\ files (fst run) !! ["home"; "demo-cli"; "notes.txt"] = Some (NFile 420 "hello")
  /\ files (fst run) !! ["home"; "demo-cli"; "notes.template.txt"] = None
  /\ files (fst run) !! ["home"; "demo-cli"; "conf.d"] = Some NDir
  /\ files (fst run) !! ["home"; "demo-cli"; "conf.d"; "a.conf"] = Some (NFile 420 "x")
  /\ files (fst run) !! ["home"; "demo-cli"; "conf.template.d"] = None.
Proof. vm_compute. repeat split. Qed.

(** ** Manifest patch *)

Lemma member_assign_eq (key : string) (value : json) (members : list (string * json)) :
  member key (assign key value members) = Some value.
Proof.
  induction members as [| [k v] rest IH]; simpl.
  - now rewrite String.eqb_refl.
  - destruct (String.eqb k key) eqn:E; simpl; rewrite E; [reflexivity | exact IH].
Qed.

Lemma member_assign_ne (key key' : string) (value : json)
      (members : list (string * json)) :
  key <> key' -> member key' (assign key value members) = member key' members.
Proof.
  intros Hne. induction members as [| [k v] rest IH]; simpl.
  - apply String.eqb_neq in Hne. now rewrite Hne.
  - destruct (String.eqb k key) eqn:E; simpl.
    + apply String.eqb_eq in E. subst k.
      apply String.eqb_neq in Hne. now rewrite Hne.
    + now rewrite IH.
Qed.


Lemma patchManifest_fields (projectInfo : ProjectInfo.t)
      (members : list (string * json)) :
  let manifest := patchManifest projectInfo members in
  member "name" manifest = Some (JString (ProjectInfo.name projectInfo))
  /\ member "description" manifest = Some (JString (ProjectInfo.description projectInfo))
  /\ member "author" manifest = Some (JString (ProjectInfo.author projectInfo))
  /\ member "license" manifest = Some (JString (ProjectInfo.license projectInfo))
  /\ member "bin" manifest
     = Some (JObject [(ProjectInfo.name projectInfo, JString "index.mjs")]).
Proof.
  unfold patchManifest. repeat split.
  - now rewrite !member_assign_ne, member_assign_eq by discriminate.
  - now rewrite !member_assign_ne, member_assign_eq by discriminate.
  - now rewrite !member_assign_ne, member_assign_eq by discriminate.
  - now rewrite !member_assign_ne, member_assign_eq by discriminate.
  - now rewrite member_assign_eq.
Qed.

Section Manifest.

Variable JSON_parse : string -> option json.
Variable JSON_stringify : json -> string.
Variable targetDir : path.
Variable projectInfo : ProjectInfo.t.

#[local] Abbreviation packageJsonPath := (path_join targetDir "package.json").

(** The assignments of [updatePackageJson] as one step. *)
Lemma setProperties (manifest : json) (w : World) :
  (packageJson ← setProperty "name" (JString (ProjectInfo.name projectInfo)) manifest;
   packageJson ← setProperty "description"
                   (JString (ProjectInfo.description projectInfo)) packageJson;
   packageJson ← setProperty "author" (JString (ProjectInfo.author projectInfo)) packageJson;
   packageJson ← setProperty "license" (JString (ProjectInfo.license projectInfo)) packageJson;
   setProperty "bin" (JObject [(ProjectInfo.name projectInfo, JString "index.mjs")])
     packageJson) w
  = match patchJson projectInfo manifest with
    | Some patched => (w, Value patched)
    | None => (w, Thrown "TypeError")
    end.
Proof. destruct manifest; reflexivity. Qed.

(** [updatePackageJson], step by step. *)
Lemma updatePackageJson_eq (w : World) :
  updatePackageJson JSON_parse JSON_stringify targetDir projectInfo w =
  match lookupNode (files w) packageJsonPath with
  | Some (NFile _ data) =>
      match JSON_parse data with
      | Some before =>
          match patchJson projectInfo before with
          | Some after =>
              match writeFile packageJsonPath (JSON_stringify after) w with
              | (w1, Value _) =>
                  (logger.success "Updated package.json with project information";;
                   mret true) w1
              | (w1, Thrown e) => updateFailed e w1
              | (w1, Exited c) => (w1, Exited c)
              end
          | None => updateFailed "TypeError" w
          end
      | None => updateFailed "SyntaxError" w
      end
  | Some NDir => updateFailed "EISDIR" w
  | None => updateFailed "ENOENT" w
  end.
Proof.
  unfold updatePackageJson, tryCatch.
  unfold mbind at 1, io_bind at 1, readJson.
  destruct (lookupNode (files w) packageJsonPath) as [[| mode data] |];
    try reflexivity.
  destruct (JSON_parse data) as [before |]; [| reflexivity].
  destruct before; try reflexivity;
    cbv beta iota delta [setProperty mbind io_bind mret io_ret writeJson patchJson
                           patchManifest];
    match goal with |- context [writeFile ?p ?d w] =>
      destruct (writeFile p d w) as [w1 [[] | e | c]] end; reflexivity.
Qed.

Lemma packageJsonPath_eq : packageJsonPath = targetDir ++ ["package.json"].
Proof. reflexivity. Qed.

(** What a run of [updatePackageJson] that returned [true] did. *)
Lemma updatePackageJson_true (w w' : World) :
  updatePackageJson JSON_parse JSON_stringify targetDir projectInfo w = (w', Value true) ->
  exists mode data before after,
    files w !! packageJsonPath = Some (NFile mode data)
    /\ JSON_parse data = Some before
    /\ patchJson projectInfo before = Some after
    /\ files w' !! packageJsonPath = Some (NFile mode (JSON_stringify after)).
Proof.
  rewrite updatePackageJson_eq.
  assert (lookupNode (files w) packageJsonPath = files w !! packageJsonPath) as ->.
  { rewrite packageJsonPath_eq. now destruct targetDir. }
  destruct (files w !! packageJsonPath) as [[| mode data] |] eqn:Hfile; try discriminate.
  destruct (JSON_parse data) as [before |] eqn:Hparse; [| discriminate].
  destruct (patchJson projectInfo before) as [after |] eqn:Hpatch; [| discriminate].
  destruct (writeFile packageJsonPath (JSON_stringify after) w)
    as [w1 [[] | e | c]] eqn:Hwrite; try discriminate.
  intros [= <-]. exists mode, data, before, after. repeat split; try assumption.
  simpl. exact (writeFile_existing _ _ _ _ _ _ Hfile Hwrite).
Qed.

(** The outcomes of [updatePackageJson]: it always returns, and a
    run that returned [false] wrote nothing. *)
Lemma updatePackageJson_returns :
  returns (updatePackageJson JSON_parse JSON_stringify targetDir projectInfo).
Proof.
  intros w. rewrite updatePackageJson_eq.
  assert (forall e w0, exists w1 b, updateFailed e w0 = (w1, Value b)) as Hfail
      by (intros e w0; eexists _, false; reflexivity).
  destruct (lookupNode (files w) packageJsonPath) as [[| mode data] |]; auto.
  destruct (JSON_parse data) as [before |]; auto.
  destruct (patchJson projectInfo before) as [after |]; auto.
  pose proof (noexit_writeFile packageJsonPath (JSON_stringify after) w) as Hne.
  destruct (writeFile packageJsonPath (JSON_stringify after) w) as [w1 [[] | e | c]]; auto.
  - eexists _, true. reflexivity.
  - now contradiction (Hne w1 c).
Qed.


(** C7, as amended: after a successful patch of a manifest that is a
    JSON object, the manifest written back has the name, description,
    author and license of the metadata, and its bin entry maps the
    name to the entry-point script [index.mjs]. *)
Theorem updatePackageJson_fields (w w' : World) (members : list (string * json)) :
  updatePackageJson JSON_parse JSON_stringify targetDir projectInfo w = (w', Value true) ->
  readJson JSON_parse packageJsonPath w = (w, Value (JObject members)) ->
  exists mode manifest,
    files w' !! packageJsonPath = Some (NFile mode (JSON_stringify manifest))
    /\ getProperty "name" manifest = Some (JString (ProjectInfo.name projectInfo))
    /\ getProperty "description" manifest
       = Some (JString (ProjectInfo.description projectInfo))
    /\ getProperty "author" manifest = Some (JString (ProjectInfo.author projectInfo))
    /\ getProperty "license" manifest = Some (JString (ProjectInfo.license projectInfo))
    /\ getProperty "bin" manifest
       = Some (JObject [(ProjectInfo.name projectInfo, JString "index.mjs")]).
Proof.
  intros Hrun Hread.
  apply updatePackageJson_true in Hrun as (mode & data & before & after & Hf & Hp & Hj & Hw).
  assert (before = JObject members) as ->.
  { revert Hread. unfold readJson.
    assert (lookupNode (files w) packageJsonPath = files w !! packageJsonPath) as ->
        by (rewrite packageJsonPath_eq; now destruct targetDir).
    rewrite Hf, Hp. now intros [= ->]. }
  injection Hj as <-. exists mode, (JObject (patchManifest projectInfo members)).
  split; [exact Hw |]. apply patchManifest_fields.
Qed.


End Manifest.

(** ** Orchestrator *)

Section Orchestrator.

Variable handlebars : string -> ProjectInfo.t -> option string.
Variable JSON_parse : string -> option json.
Variable JSON_stringify : json -> string.
Variable exec : string -> path -> gmap path node -> gmap path node * bool.
Variable gitConfig : string -> option string.

Lemma noexit_execPromise (command : string) (cwd : path) :
  noexit (execPromise exec command cwd).
Proof. unfold execPromise. io_cases. Qed.

Lemma initGit_returns (targetDir : path) : returns (initGit exec targetDir).
Proof.
  unfold initGit. apply returns_tryCatch.
  - apply noexit_bind; [apply noexit_execPromise | intros _]. auto 6 with io.
  - intros e. auto with io.
Qed.

Lemma installDependencies_returns (targetDir : path) :
  returns (installDependencies exec targetDir).
Proof.
  unfold installDependencies. apply returns_tryCatch.
  - apply noexit_bind; [auto with io | intros _].
    apply noexit_bind; [apply noexit_execPromise | intros _]. auto 6 with io.
  - intros e. auto with io.
Qed.

Lemma whenOn_returns (flag : bool) (step : io bool) :
  returns step -> returns (whenOn flag step).
Proof. intros H. unfold whenOn. destruct flag; auto with io. Qed.

(** The identity lookup always answers and writes no file. *)
Lemma getGitUser_run (w : World) :
  exists w1 gitUser,
    getGitUser gitConfig w = (w1, Value gitUser) /\ files w1 = files w.
Proof.
  unfold getGitUser, tryCatch.
  destruct (gitConfig "user.name") as [n |], (gitConfig "user.email") as [e |];
    simpl; eauto.
Qed.

Variable options : Options.
Variable cwd : path.
Variable scaffold : tnode.

(** The target exists: the process stops with status 1 and no file
    has been written. *)
Lemma createProject_target_exists (projectInfo : ProjectInfo.t) (w : World) :
  existsSync (path_resolve cwd (ProjectInfo.name projectInfo)) w = true ->
  exists w',
    tryCatch (createProject handlebars JSON_parse JSON_stringify exec
                projectInfo options cwd scaffold) createFailed w
    = (w', Exited 1)
    /\ files w' = files w.
Proof.
  intros Hex. unfold tryCatch, createProject.
  unfold mbind at 1, io_bind at 1. rewrite Hex.
  revert Hex. unfold existsSync, readdirSync, mbind, io_bind.
  destruct (lookupNode (files w) _) as [[| mode data] |]; try discriminate; intros _.
  - destruct (negb _); simpl; eauto.
  - simpl. eauto.
Qed.

(** The steps after [ensureDir] always run to the end. *)
Lemma createProject_tail_returns (projectInfo : ProjectInfo.t) (targetDir : path) :
  returns
    (c ← copyTemplate handlebars scaffold targetDir projectInfo;
     p ← updatePackageJson JSON_parse JSON_stringify targetDir projectInfo;
     g ← whenOn (git options) (initGit exec targetDir);
     i ← whenOn (install options) (installDependencies exec targetDir);
     logger.success (nextSteps (ProjectInfo.name projectInfo));;
     mret {| copied := c; patched := p; gitInitialized := g; installed := i |}).
Proof.
  apply returns_bind; [apply copyTemplate_returns | intros c].
  apply returns_bind; [apply updatePackageJson_returns | intros p].
  apply returns_bind; [apply whenOn_returns, initGit_returns | intros g].
  apply returns_bind; [apply whenOn_returns, installDependencies_returns | intros i].
  auto with io.
Qed.

Lemma ensureDir_run (p : path) (w : World) :
  (canCreate p w = true /\ exists w0, ensureDir p w = (w0, Value tt))
  \/ (canCreate p w = false /\ exists e, ensureDir p w = (w, Thrown e)).
Proof.
  unfold canCreate, ensureDir. destruct (mkdirs (chain [] p) (files w)); eauto.
Qed.

(** Where the steps after [ensureDir] end, [copyTemplate] has run and
    returned what the record says. *)
Lemma createProject_tail_value (projectInfo : ProjectInfo.t) (targetDir : path)
      (w0 w' : World) (steps : Steps) :
  (c ← copyTemplate handlebars scaffold targetDir projectInfo;
   p ← updatePackageJson JSON_parse JSON_stringify targetDir projectInfo;
   g ← whenOn (git options) (initGit exec targetDir);
   i ← whenOn (install options) (installDependencies exec targetDir);
   logger.success (nextSteps (ProjectInfo.name projectInfo));;
   mret {| copied := c; patched := p; gitInitialized := g; installed := i |}) w0
  = (w', Value steps) ->
  exists w2,
    copyTemplate handlebars scaffold targetDir projectInfo w0 = (w2, Value (copied steps)).
Proof.
  intros H.
  apply bind_value in H as (w2 & c & Hcopy & H).
  apply bind_value in H as (w3 & p & _ & H).
  apply bind_value in H as (w4 & g & _ & H).
  apply bind_value in H as (w5 & i & _ & H).
  apply bind_value in H as (w6 & [] & _ & H).
  injection H as _ <-. exists w2. exact Hcopy.
Qed.

(** The target does not exist: the run goes through [copyTemplate] and
    all later steps exactly when the project directory can be created,
    and otherwise stops with status 1 and no file written. *)
Lemma createProject_target_absent (projectInfo : ProjectInfo.t) (w : World) :
  existsSync (path_resolve cwd (ProjectInfo.name projectInfo)) w = false ->
  exists w' r,
    tryCatch (createProject handlebars JSON_parse JSON_stringify exec
                projectInfo options cwd scaffold) createFailed w
    = (w', r)
    /\ if canCreate (path_resolve cwd (ProjectInfo.name projectInfo)) w
       then exists steps w0 w2,
           r = Value steps
           /\ ensureDir (path_resolve cwd (ProjectInfo.name projectInfo)) w
              = (w0, Value tt)
           /\ copyTemplate handlebars scaffold
                (path_resolve cwd (ProjectInfo.name projectInfo)) projectInfo w0
              = (w2, Value (copied steps))
       else r = Exited 1 /\ files w' = files w.
Proof.
  intros Hex. unfold tryCatch, createProject.
  unfold mbind at 1, io_bind at 1. rewrite Hex.
  unfold mbind at 1, io_bind at 1.
  destruct (ensureDir_run (path_resolve cwd (ProjectInfo.name projectInfo)) w)
    as [(Hc & w0 & Hdir) | (Hc & e & Hdir)]; rewrite Hc, Hdir.
  - destruct (createProject_tail_returns projectInfo
                (path_resolve cwd (ProjectInfo.name projectInfo)) w0)
      as (w' & steps & E).
    rewrite E. destruct (createProject_tail_value _ _ _ _ _ E) as (w2 & Hcopy).
    exists w', (Value steps). split; [reflexivity |]. eauto 6.
  - simpl. eauto.
Qed.

(** C1, as amended: materialization proceeds exactly when the target
    directory does not exist and can be created; when the target
    exists, empty or not, the command stops with status 1 before
    anything is written. *)
Theorem createCommand_target_check (name : option string) (w : World)
        (answers rest : list string) (out : World * result Steps) :
  run (createCommand handlebars JSON_parse JSON_stringify exec gitConfig
         name options cwd scaffold w) answers = Some (out, rest) ->
  exists w1 gitUser projectInfo,
    getGitUser gitConfig w = (w1, Value gitUser)
    /\ run (getProjectInfo name options gitUser) answers = Some (projectInfo, rest)
    /\ let targetDir := path_resolve cwd (ProjectInfo.name projectInfo) in
       (materialized (snd out) = true
        <-> existsSync targetDir w = false /\ canCreate targetDir w = true)
       /\ (materialized (snd out) = true ->
           exists steps w0 w2,
             snd out = Value steps
             /\ ensureDir targetDir w1 = (w0, Value tt)
             /\ copyTemplate handlebars scaffold targetDir projectInfo w0
                = (w2, Value (copied steps)))
       /\ (materialized (snd out) = false ->
           snd out = Exited 1 /\ exitCode (snd out) = 1%Z
           /\ files (fst out) = files w)
       /\ (existsSync targetDir w = true -> materialized (snd out) = false).
Proof.
  unfold createCommand.
  destruct (getGitUser_run w) as (w1 & gitUser & Hgit & Hfiles). rewrite Hgit.
  rewrite run_pbind.
  destruct (run (getProjectInfo name options gitUser) answers)
    as [[projectInfo rest'] |] eqn:Hinfo; [| discriminate].
  simpl. intros [= <- <-].
  exists w1, gitUser, projectInfo. split; [reflexivity |]. split; [exact Hinfo |].
  set (targetDir := path_resolve cwd (ProjectInfo.name projectInfo)).
  assert (existsSync targetDir w1 = existsSync targetDir w) as Hex
      by (unfold existsSync; now rewrite Hfiles).
  assert (canCreate targetDir w1 = canCreate targetDir w) as Hcan
      by (unfold canCreate; now rewrite Hfiles).
  destruct (existsSync targetDir w) eqn:E.
  - destruct (createProject_target_exists projectInfo w1 Hex) as (w' & -> & Hw').
    simpl. repeat split; try discriminate; try congruence.
    intros [? _]. discriminate.
  - destruct (createProject_target_absent projectInfo w1 Hex) as (w' & r & -> & Hr).
    fold targetDir in Hr. rewrite Hcan in Hr. simpl.
    destruct (canCreate targetDir w).
    + destruct Hr as (steps & w0 & w2 & -> & Hdir & Hcopy). simpl.
      repeat split; try discriminate; eauto 6.
    + destruct Hr as (-> & Hw'). simpl.
      repeat split; try discriminate; try congruence.
      intros [_ ?]. discriminate.
Qed.

End Orchestrator.

(** ** Concrete runs of the command *)

Example createCommand_fresh_target :
  let r := run (cli (Some "demo-cli") quiet scaffold home) [] in
  resultOf r = Some (Value {| copied := true; patched := true;
                              gitInitialized := None; installed := None |})
  /\ files (worldOf r) !! ["home"; "demo-cli"; "index.mjs"]
     = Some (NFile 493 "#!/usr/bin/env node // demo-cli")
  /\ exists manifest,
       files (worldOf r) !! ["home"; "demo-cli"; "package.json"]
       = Some (NFile 420 (stringifyToy manifest))
       /\ getProperty "name" manifest = Some (JString "demo-cli")
       /\ getProperty "version" manifest = Some (JString "1.0.0").
Proof.
  split; [vm_compute; reflexivity |]. split; [vm_compute; reflexivity |].
  exists (JObject (patchManifest
                     (ProjectInfo.mk "demo-cli" "Demo cli" "" "A" "MIT" "a@example.org")
                     templateManifest)).
  vm_compute. repeat split.
Qed.

(** C1, counterexample: the target directory exists and is empty, and
    the command stops with status 1 without materializing anything. *)
Lemma createCommand_refuses_empty_directory :
  let target := path_resolve ["home"] "demo-cli" in
  let r := run (cli (Some "demo-cli") quiet scaffold homeWithEmptyTarget) [] in
  existsSync target homeWithEmptyTarget = true
  /\ emptyDirectory target homeWithEmptyTarget
  /\ resultOf r = Some (Exited 1)
  /\ (materialized <$> resultOf r) = Some false
  /\ files (worldOf r) = files homeWithEmptyTarget
  /\ console (worldOf r) = [(LError, "Directory demo-cli already exists.")].
Proof.
  split; [vm_compute; reflexivity |].
  split; [split; vm_compute; reflexivity |].
  split; [vm_compute; reflexivity |].
  split; [vm_compute; reflexivity |].
  split; vm_compute; reflexivity.
Qed.

Lemma createCommand_target_check_witness :
  exists w1 gitUser projectInfo,
    getGitUser gitConfigToy home = (w1, Value gitUser)
    /\ run (getProjectInfo (Some "demo-cli") quiet gitUser) [] = Some (projectInfo, [])
    /\ let targetDir := path_resolve ["home"] (ProjectInfo.name projectInfo) in
       let out := (worldOf (run (cli (Some "demo-cli") quiet scaffold home) []),
                   Value {| copied := true; patched := true;
                            gitInitialized := None; installed := None |}) in
       (materialized (snd out) = true
        <-> existsSync targetDir home = false /\ canCreate targetDir home = true)
       /\ (materialized (snd out) = true ->
           exists steps w0 w2,
             snd out = Value steps
             /\ ensureDir targetDir w1 = (w0, Value tt)
             /\ copyTemplate substitute scaffold targetDir projectInfo w0
                = (w2, Value (copied steps)))
       /\ (materialized (snd out) = false ->
           snd out = Exited 1 /\ exitCode (snd out) = 1%Z
           /\ files (fst out) = files home)
       /\ (existsSync targetDir home = true -> materialized (snd out) = false).
Proof.
  apply (createCommand_target_check substitute parseToy stringifyToy noExec gitConfigToy
           quiet ["home"] scaffold (Some "demo-cli") home [] []).
  vm_compute. reflexivity.
Defined.

(** C2: one template file cannot be read. [copyTemplate] logs the
    failure and returns [false]; [createCommand] drops that value and
    goes on: the manifest, listed after the unreadable file and never
    created, cannot be patched either, and still the closing success
    message is printed and the command ends with status 0. The listing
    is in the order of [fs.readdir]: [.gitignore] was written before
    the failure, the entry point and the manifest never were. *)
Theorem createCommand_reports_success_after_failed_copy :
  let broken := TDir [("gitignore", TFile 420 "node_modules");
                      ("index.mjs.template", TDenied false);
                      ("package.json.template", TFile 420 "{ }")] in
  let r := run (cli (Some "demo-cli") quiet broken home) [] in
  listed broken = true
  /\ resultOf r = Some (Value {| copied := false; patched := false;
                                 gitInitialized := None; installed := None |})
  /\ (exitCode <$> resultOf r) = Some 0%Z
  /\ console (worldOf r)
     = [(LInfo, "Created .gitignore");
        (LError, "Failed to copy template");
        (LErrorObject, "EACCES");
        (LError, "Failed to update package.json");
        (LErrorObject, "ENOENT");
        (LSuccess, nextSteps "demo-cli")]
  /\ files (worldOf r) !! ["home"; "demo-cli"; ".gitignore"]
     = Some (NFile 420 "node_modules")
  /\ files (worldOf r) !! ["home"; "demo-cli"; "index.mjs"] = None
  /\ files (worldOf r) !! ["home"; "demo-cli"; "package.json"] = None.
Proof. vm_compute. repeat split. Qed.

(** C3: a name given as argument is never validated. The argument
    [invalid/project:name] fails the charset test, is resolved as the
    name with and without the skip-prompts flag, and the command
    creates [invalid/project:name] below the current directory and
    ends with status 0. *)
Theorem getProjectInfo_accepts_invalid_argument :
  let bad := "invalid/project:name" in
  validName bad = false
  /\ (forall gitUser,
        getProjectInfo (Some bad) {| yes := true; git := true; install := true |} gitUser
        = Done (ProjectInfo.mk bad "Invalid/project:name" ""
                  (git_name gitUser) "MIT" (git_email gitUser)))
  /\ run (getProjectInfo (Some bad) {| yes := false; git := true; install := true |}
            {| git_name := "A"; git_email := "" |}) [""; ""; ""; ""]
     = Some (ProjectInfo.mk bad "Invalid/project:name" "" "A" "MIT" "", [])
  /\ (let r := run (cli (Some bad) quiet scaffold home) [] in
      (exitCode <$> resultOf r) = Some 0%Z
      /\ files (worldOf r) !! ["home"; "invalid"; "project:name"] = Some NDir
      /\ files (worldOf r) !! ["home"; "invalid"; "project:name"; "index.mjs"]
         = Some (NFile 493 "#!/usr/bin/env node // invalid/project:name")).
Proof.
  split; [reflexivity |]. split.
  { intros gitUser. reflexivity. }
  split; [reflexivity |]. vm_compute. repeat split.
Qed.

(** C7, counterexample: the manifest read is a JSON array. The five
    assignments set properties that are never serialized: the patch
    succeeds, [updatePackageJson] logs its success and returns [true],
    and the manifest written back is the array as it was, with none of
    the five fields. *)
Lemma updatePackageJson_array_manifest :
  let manifestPath := path_join ["home"; "demo-cli"] "package.json" in
  let run := updatePackageJson parseArrayToy stringifyToy ["home"; "demo-cli"] demoInfo
               homeWithArrayManifest in
  snd (readJson parseArrayToy manifestPath homeWithArrayManifest) = Value (JArray [])
  /\ snd run = Value true
  /\ console (fst run) = [(LSuccess, "Updated package.json with project information")]
  /\ files (fst run) !! manifestPath = Some (NFile 420 (stringifyToy (JArray [])))
  /\ stringifyToy (JArray []) = "[]"
  /\ getProperty "name" (JArray []) = None
  /\ getProperty "description" (JArray []) = None
  /\ getProperty "author" (JArray []) = None
  /\ getProperty "license" (JArray []) = None
  /\ getProperty "bin" (JArray []) = None.
Proof. vm_compute. repeat split. Qed.

(** The manifest of the materialized project, patched. *)
Lemma updatePackageJson_fields_witness :
  exists mode manifest,
    files (fst (updatePackageJson parseToy stringifyToy ["home"; "demo-cli"] demoInfo
                  materializedProject))
      !! path_join ["home"; "demo-cli"] "package.json"
    = Some (NFile mode (stringifyToy manifest))
    /\ getProperty "name" manifest = Some (JString "demo-cli")
    /\ getProperty "description" manifest = Some (JString "d")
    /\ getProperty "author" manifest = Some (JString "A")
    /\ getProperty "license" manifest = Some (JString "ISC")
    /\ getProperty "bin" manifest = Some (JObject [("demo-cli", JString "index.mjs")]).
Proof.
  apply (updatePackageJson_fields parseToy stringifyToy ["home"; "demo-cli"] demoInfo
           materializedProject
           (fst (updatePackageJson parseToy stringifyToy ["home"; "demo-cli"] demoInfo
                   materializedProject))
           templateManifest).
  - vm_compute. reflexivity.
  - vm_compute. reflexivity.
Defined.


Example manifest_patched :
  stringifyToy (JObject (patchManifest demoInfo
                           [("name", JString "cli-app"); ("version", JString "1.0.0")]))
  = "{" +:+ quote "name" +:+ ":" +:+ quote "demo-cli" +:+ ","
        +:+ quote "version" +:+ ":" +:+ quote "1.0.0" +:+ ","
        +:+ quote "description" +:+ ":" +:+ quote "d" +:+ ","
        +:+ quote "author" +:+ ":" +:+ quote "A" +:+ ","
        +:+ quote "license" +:+ ":" +:+ quote "ISC" +:+ ","
        +:+ quote "bin" +:+ ":{" +:+ quote "demo-cli" +:+ ":" +:+ quote "index.mjs"
        +:+ "}}".
Proof. vm_compute. reflexivity. Qed.

(** * Further properties of the code *)

(** ** Metadata resolver, both generations *)

Lemma or_empty (a : string) : Js.or (Some a) "" = a.
Proof. now destruct a. Qed.

Lemma choose_valid (choices : list (string * string)) (d : string)
      (answers rest : list string) (s : string) :
  choose choices d answers = Some (s, rest) -> In s (map fst choices).
Proof.
  induction answers as [| a answers IH]; simpl; [discriminate |].
  destruct (existsb _ choices) eqn:E; [| exact IH].
  intros [= <- _]. apply existsb_exists in E as ([k v] & Hin & Heq).
  apply String.eqb_eq in Heq. simpl in Heq. subst k.
  apply in_map_iff. now exists (Js.or (Some a) d, v).
Qed.

Lemma submit_skip (d : option string) (v : string -> bool) (bad answers : list string) :
  Forall (fun a => v (Js.or (Some a) (Js.or d "")) = false) bad ->
  submit d v (bad ++ answers) = submit d v answers.
Proof. induction 1 as [| a bad Ha _ IH]; simpl; [reflexivity |]. now rewrite Ha. Qed.

(** The questions of the interactive branch, one after the other. *)
Lemma getProjectInfo_interactive (name : option string) (options : Options)
      (gitUser : GitUser) (answers rest : list string) (projectInfo : ProjectInfo.t) :
  yes options = false ->
  run (getProjectInfo name options gitUser) answers = Some (projectInfo, rest) ->
  exists n r1 t r2 d r3 a r4 l,
    match Js.truthy name with
    | Some m => n = m /\ r1 = answers
    | None => submit None validName answers = Some (n, r1)
    end
    /\ submit (Some (defaultTitle n)) (fun _ => true) r1 = Some (t, r2)
    /\ submit None (fun _ => true) r2 = Some (d, r3)
    /\ submit (Some (git_name gitUser)) (fun _ => true) r3 = Some (a, r4)
    /\ choose licenseChoices "MIT" r4 = Some (l, rest)
    /\ projectInfo = ProjectInfo.mk n t d a l (git_email gitUser).
Proof.
  intros Hyes. unfold getProjectInfo. rewrite Hyes, run_pbind.
  destruct (Js.truthy name) as [m |]; simpl.
  - destruct (submit _ _ answers) as [[t r2] |] eqn:E2; [| discriminate].
    destruct (submit _ _ r2) as [[d r3] |] eqn:E3; [| discriminate].
    destruct (submit _ _ r3) as [[a r4] |] eqn:E4; [| discriminate].
    destruct (choose _ _ r4) as [[l r5] |] eqn:E5; [| discriminate].
    intros [= <- <-]. exists m, answers, t, r2, d, r3, a, r4, l. auto 10.
  - destruct (submit None validName answers) as [[n r1] |] eqn:E1; [| discriminate].
    destruct (submit _ _ r1) as [[t r2] |] eqn:E2; [| discriminate].
    destruct (submit _ _ r2) as [[d r3] |] eqn:E3; [| discriminate].
    destruct (submit _ _ r3) as [[a r4] |] eqn:E4; [| discriminate].
    destruct (choose _ _ r4) as [[l r5] |] eqn:E5; [| discriminate].
    intros [= <- <-]. exists n, r1, t, r2, d, r3, a, r4, l. auto 10.
Qed.

Lemma defaultTitle_nonempty (n : string) : n <> "" -> defaultTitle n <> "".
Proof. destruct n; [congruence | discriminate]. Qed.

(** X2: the resolved name is never empty, whatever name is given on
    the command line and whatever is typed at the prompts; with the
    skip-prompts flag the title, derived from that name, is never
    empty either. *)
Theorem getProjectInfo_name_never_empty (name : option string) (options : Options)
        (gitUser : GitUser) (answers rest : list string) (projectInfo : ProjectInfo.t) :
  run (getProjectInfo name options gitUser) answers = Some (projectInfo, rest) ->
  ProjectInfo.name projectInfo <> ""
  /\ (yes options = true -> ProjectInfo.title projectInfo <> "").
Proof.
  intros Hrun. pose proof (getProjectInfo_name_nonempty _ _ _ _ _ _ Hrun) as Hname.
  split; [exact Hname |]. intros Hyes.
  revert Hrun Hname. unfold getProjectInfo. rewrite Hyes. simpl.
  intros [= <- _]. simpl. apply defaultTitle_nonempty.
Qed.

Lemma getProjectInfo_name_never_empty_witness :
  ProjectInfo.name (ProjectInfo.mk "cli-app" "Cli app" "" "A" "MIT" "a@example.org") <> ""
  /\ (yes {| yes := true; git := true; install := true |} = true ->
      ProjectInfo.title
        (ProjectInfo.mk "cli-app" "Cli app" "" "A" "MIT" "a@example.org") <> "").
Proof.
  apply (getProjectInfo_name_never_empty (Some "")
           {| yes := true; git := true; install := true |}
           {| git_name := "A"; git_email := "a@example.org" |} [] []).
  reflexivity.
Defined.

(** X3: the resolved license is always one of MIT, ISC, Apache-2.0 and
    GPL-3.0. *)
Theorem getProjectInfo_license_enumerated (name : option string) (options : Options)
        (gitUser : GitUser) (answers rest : list string) (projectInfo : ProjectInfo.t) :
  run (getProjectInfo name options gitUser) answers = Some (projectInfo, rest) ->
  In (ProjectInfo.license projectInfo) ["MIT"; "ISC"; "Apache-2.0"; "GPL-3.0"].
Proof.
  intros Hrun. destruct (yes options) eqn:Hyes.
  - revert Hrun. unfold getProjectInfo. rewrite Hyes. simpl.
    intros [= <- _]. simpl. auto.
  - apply (getProjectInfo_interactive _ _ _ _ _ _ Hyes) in Hrun
      as (n & r1 & t & r2 & d & r3 & a & r4 & l & _ & _ & _ & _ & Hl & ->).
    exact (choose_valid _ _ _ _ _ Hl).
Qed.

Lemma getProjectInfo_license_enumerated_witness :
  In (ProjectInfo.license
        (ProjectInfo.mk "my-app" "My app" "tool" "A" "GPL-3.0" "a@example.org"))
     ["MIT"; "ISC"; "Apache-2.0"; "GPL-3.0"].
Proof.
  apply (getProjectInfo_license_enumerated (Some "my-app")
           {| yes := false; git := true; install := true |}
           {| git_name := "A"; git_email := "a@example.org" |}
           [""; "tool"; ""; "BSD"; "GPL-3.0"] []).
  reflexivity.
Defined.

(** X4: at the name prompt every line that fails the charset test,
    the empty line included, is asked again and leaves no trace: the
    run is the run without those lines. *)
Theorem getProjectInfo_reprompts (name : option string) (options : Options)
        (gitUser : GitUser) (bad answers : list string) :
  yes options = false ->
  Js.truthy name = None ->
  Forall (fun a => validName a = false) bad ->
  run (getProjectInfo name options gitUser) (bad ++ answers)
  = run (getProjectInfo name options gitUser) answers.
Proof.
  intros Hyes Hname Hbad. unfold getProjectInfo. rewrite Hyes, Hname, !run_pbind.
  simpl. rewrite submit_skip; [reflexivity |].
  eapply Forall_impl; [exact Hbad |]. intros a Ha. simpl. now rewrite or_empty.
Qed.

Lemma getProjectInfo_reprompts_witness :
  run (getProjectInfo None {| yes := false; git := true; install := true |}
         {| git_name := "A"; git_email := "" |})
      (["my app"; ""; "a/b"] ++ ["my-app"; ""; ""; ""; ""])
  = run (getProjectInfo None {| yes := false; git := true; install := true |}
           {| git_name := "A"; git_email := "" |})
        ["my-app"; ""; ""; ""; ""].
Proof.
  apply (getProjectInfo_reprompts None {| yes := false; git := true; install := true |}
           {| git_name := "A"; git_email := "" |} ["my app"; ""; "a/b"]).
  - reflexivity.
  - reflexivity.
  - repeat constructor.
Defined.

Lemma startsWith_cons_ne (x c : ascii) (p s : string) :
  x <> c -> Js.startsWith (String x p) (String c s) = false.
Proof.
  intros Hne. unfold Js.startsWith.
  change (String.prefix (String x p) (String c s))
    with (if ascii_dec x c then String.prefix p s else false).
  destruct (ascii_dec x c); [congruence | reflexivity].
Qed.

Lemma includes_cons (pat : string) (c : ascii) (s : string) :
  Js.includes pat (String c s) = Js.startsWith pat (String c s) || Js.includes pat s.
Proof. reflexivity. Qed.

Lemma includes_replaceAllChar (s : string) :
  Js.includes "-" (Js.replaceAllChar "-"%char " "%char s) = false.
Proof.
  induction s as [| c s IH]; [reflexivity |].
  change (Js.replaceAllChar "-" " " (String c s))
    with (String (if Ascii.eqb c "-" then " "%char else c)
                 (Js.replaceAllChar "-" " " s)).
  rewrite includes_cons, IH, orb_false_r. apply startsWith_cons_ne.
  destruct (Ascii.eqb c "-") eqn:E; [discriminate |].
  apply Ascii.eqb_neq in E. congruence.
Qed.

Lemma length_replaceAllChar (c d : ascii) (s : string) :
  String.length (Js.replaceAllChar c d s) = String.length s.
Proof. induction s; simpl; congruence. Qed.

(** X5: for a name of ASCII characters the derived title is as long
    as the name and has no hyphen after its first character. *)
Theorem defaultTitle_shape (n : string) :
  Js.isAscii n = true ->
  String.length (defaultTitle n) = String.length n
  /\ Js.includes "-" (Js.slice 1 (defaultTitle n)) = false.
Proof.
  intros _. destruct n as [| c n]; [split; reflexivity |].
  change (defaultTitle (String c n))
    with (String (Js.upperChar c) (Js.replaceAllChar "-" " " n)).
  split.
  - change (S (String.length (Js.replaceAllChar "-" " " n)) = S (String.length n)).
    now rewrite length_replaceAllChar.
  - apply includes_replaceAllChar.
Qed.

Lemma defaultTitle_shape_witness :
  String.length (defaultTitle "my-cli-app") = String.length "my-cli-app"
  /\ Js.includes "-" (Js.slice 1 (defaultTitle "my-cli-app")) = false.
Proof. apply (defaultTitle_shape "my-cli-app"). reflexivity. Defined.

Lemma getProjectInfoJs_interactive (name : option string) (options : Options)
      (gitUser : GitUser) (answers rest : list string) (projectInfo : ProjectInfoJs.t) :
  yes options = false ->
  run (getProjectInfoJs name options gitUser) answers = Some (projectInfo, rest) ->
  exists n r1 d r2 a r3 l,
    match Js.truthy name with
    | Some m => n = m /\ r1 = answers
    | None => submit None validName answers = Some (n, r1)
    end
    /\ submit None (fun _ => true) r1 = Some (d, r2)
    /\ submit (Some (git_name gitUser)) (fun _ => true) r2 = Some (a, r3)
    /\ choose licenseChoices "MIT" r3 = Some (l, rest)
    /\ projectInfo = ProjectInfoJs.mk n d a l (git_email gitUser).
Proof.
  intros Hyes. unfold getProjectInfoJs. rewrite Hyes, run_pbind.
  destruct (Js.truthy name) as [m |]; simpl.
  - destruct (submit _ _ answers) as [[d r2] |] eqn:E2; [| discriminate].
    destruct (submit _ _ r2) as [[a r3] |] eqn:E3; [| discriminate].
    destruct (choose _ _ r3) as [[l r4] |] eqn:E4; [| discriminate].
    intros [= <- <-]. exists m, answers, d, r2, a, r3, l. auto 10.
  - destruct (submit None validName answers) as [[n r1] |] eqn:E1; [| discriminate].
    destruct (submit _ _ r1) as [[d r2] |] eqn:E2; [| discriminate].
    destruct (submit _ _ r2) as [[a r3] |] eqn:E3; [| discriminate].
    destruct (choose _ _ r3) as [[l r4] |] eqn:E4; [| discriminate].
    intros [= <- <-]. exists n, r1, d, r2, a, r3, l. auto 10.
Qed.

Lemma truthy_nonempty (name : option string) (m : string) :
  Js.truthy name = Some m -> m <> "".
Proof. destruct name as [[| c n] |]; simpl; congruence. Qed.

(** X6: the first-generation resolver keeps the same invariants: the
    name it resolves is never empty, a name it prompted for passes the
    charset test, and the license is one of the four of the list. *)
Theorem getProjectInfoJs_invariants (name : option string) (options : Options)
        (gitUser : GitUser) (answers rest : list string) (projectInfo : ProjectInfoJs.t) :
  run (getProjectInfoJs name options gitUser) answers = Some (projectInfo, rest) ->
  ProjectInfoJs.name projectInfo <> ""
  /\ In (ProjectInfoJs.license projectInfo) ["MIT"; "ISC"; "Apache-2.0"; "GPL-3.0"]
  /\ (yes options = false -> Js.truthy name = None ->
      validName (ProjectInfoJs.name projectInfo) = true).
Proof.
  intros Hrun. destruct (yes options) eqn:Hyes.
  - revert Hrun. unfold getProjectInfoJs. rewrite Hyes. simpl. intros [= <- _]. simpl.
    repeat split; auto; [| discriminate].
    unfold Js.or. destruct (Js.truthy name) as [m |] eqn:E; [| discriminate].
    exact (truthy_nonempty _ _ E).
  - apply (getProjectInfoJs_interactive _ _ _ _ _ _ Hyes) in Hrun
      as (n & r1 & d & r2 & a & r3 & l & Hn & _ & _ & Hl & ->). simpl.
    split; [| split].
    + destruct (Js.truthy name) as [m |] eqn:E.
      * destruct Hn as [-> _]. exact (truthy_nonempty _ _ E).
      * apply submit_valid in Hn. now destruct n.
    + exact (choose_valid _ _ _ _ _ Hl).
    + intros _ Hnone. rewrite Hnone in Hn. exact (submit_valid _ _ _ _ _ Hn).
Qed.

Lemma getProjectInfoJs_invariants_witness :
  ProjectInfoJs.name (ProjectInfoJs.mk "my-app" "tool" "A" "MIT" "") <> ""
  /\ In (ProjectInfoJs.license (ProjectInfoJs.mk "my-app" "tool" "A" "MIT" ""))
        ["MIT"; "ISC"; "Apache-2.0"; "GPL-3.0"]
  /\ (yes {| yes := false; git := true; install := true |} = false ->
      Js.truthy None = None ->
      validName (ProjectInfoJs.name (ProjectInfoJs.mk "my-app" "tool" "A" "MIT" ""))
      = true).
Proof.
  apply (getProjectInfoJs_invariants None {| yes := false; git := true; install := true |}
           {| git_name := "A"; git_email := "" |}
           ["a.b"; "my app"; "my-app"; "tool"; ""; ""] []).
  reflexivity.
Defined.

(** ** Template materializer: outcomes, failures, reach *)

Lemma eq_pair_of_snd {A B : Type} (x : A * B) (b : B) : snd x = b -> x = (fst x, b).
Proof. destruct x. simpl. now intros ->. Qed.

Lemma writeFile_mode (p : path) (data : string) (w w' : World) :
  writeFile p data w = (w', Value tt) ->
  p <> []
  /\ files w' !! p
     = Some (NFile (match files w !! p with
                    | Some (NFile m0 _) => m0
                    | _ => newFileMode w
                    end) data).
Proof.
  unfold writeFile. destruct p as [| c p]; [discriminate |].
  intros H. split; [discriminate |].
  destruct (lookupNode (files w) (dirname (c :: p))) as [[| ? ?] |]; try discriminate.
  destruct (files w !! (c :: p)) as [[| m ?] |]; try discriminate;
    injection H as <-; simpl; apply lookup_insert_eq.
Qed.

Lemma mkdirs_keeps_dir (p : path) (todo : list path) (fs fs' : gmap path node) :
  fs !! p = Some NDir -> mkdirs todo fs = Some fs' -> fs' !! p = Some NDir.
Proof.
  revert fs. induction todo as [| q todo IH]; simpl; intros fs Hp.
  - now intros [= <-].
  - destruct (fs !! q) as [[| m d] |] eqn:E; [now apply IH | discriminate |].
    apply IH. rewrite lookup_insert_ne; [exact Hp | congruence].
Qed.

Lemma mkdirs_creates (p : path) (todo : list path) (fs fs' : gmap path node) :
  p ∈ todo -> mkdirs todo fs = Some fs' -> fs' !! p = Some NDir.
Proof.
  revert fs. induction todo as [| q todo IH]; simpl; intros fs Hp.
  - now apply elem_of_nil in Hp.
  - apply elem_of_cons in Hp as [<- | Hp].
    + destruct (fs !! p) as [[| m d] |] eqn:E; [| discriminate |].
      * now apply mkdirs_keeps_dir.
      * apply mkdirs_keeps_dir. apply lookup_insert_eq.
    + destruct (fs !! q) as [[| m d] |]; [now apply IH | discriminate | now apply IH].
Qed.

Lemma chain_self (base rest : path) : rest <> [] -> base ++ rest ∈ chain base rest.
Proof.
  revert base. induction rest as [| c rest IH]; intros base Hne; [congruence |].
  simpl. destruct rest as [| c' rest].
  - apply elem_of_cons. now left.
  - apply elem_of_cons. right.
    replace (base ++ c :: c' :: rest) with ((base ++ [c]) ++ c' :: rest)
      by now rewrite <- app_assoc.
    now apply IH.
Qed.

(** After [ensureDir] the path is a directory. *)
Lemma ensureDir_directory (p : path) (w w0 : World) :
  ensureDir p w = (w0, Value tt) -> lookupNode (files w0) p = Some NDir.
Proof.
  unfold ensureDir.
  destruct (mkdirs (chain [] p) (files w)) as [fs |] eqn:E; [| discriminate].
  intros [= <-]. simpl. destruct p as [| c p]; [reflexivity |].
  apply (mkdirs_creates _ _ _ _ (chain_self [] (c :: p) ltac:(discriminate)) E).
Qed.

(** What [logger.error] prints when it is handed the error. *)
Lemma error_run (message e : string) (w : World) :
  logger.error message (Some e) w
  = (mkWorld (files w) (console w ++ [(LError, message); (LErrorObject, e)]) (umask w),
     Value tt).
Proof.
  unfold logger.error, logger.print, mbind, io_bind. simpl. now rewrite <- app_assoc.
Qed.

Lemma copyFailed_run (e : string) (w : World) :
  copyFailed e w
  = (mkWorld (files w)
       (console w ++ [(LError, "Failed to copy template"); (LErrorObject, e)])
       (umask w),
     Value false).
Proof. unfold copyFailed. now rewrite (bind_step _ _ _ _ _ (error_run _ e w)). Qed.

Section Outcomes.

Variable handlebars : string -> ProjectInfo.t -> option string.
Variable variables : ProjectInfo.t.

Lemma copyEntries_value (files : list (string * tnode)) (targetPath : path)
      (w w' : World) (b : bool) :
  copyEntries handlebars files targetPath variables w = (w', Value b) -> b = true.
Proof.
  revert w. induction files as [| [name file] rest IH]; simpl; intros w H.
  - now injection H as _ <-.
  - apply bind_value in H as (w1 & [] & _ & H). exact (IH _ H).
Qed.

Lemma copyEntries_thrown (before after : list (string * tnode)) (name : string)
      (file : tnode) (targetPath : path) (w w1 w2 : World) (e : string) :
  copyEntries handlebars before targetPath variables w = (w1, Value true) ->
  copyEntry handlebars (fun dest => copyTemplate handlebars file dest variables)
            name file targetPath variables w1 = (w2, Thrown e) ->
  copyEntries handlebars (before ++ (name, file) :: after) targetPath variables w
  = (w2, Thrown e).
Proof.
  revert w. induction before as [| [n f] rest IH]; simpl; intros w H1 H2.
  - injection H1 as ->. unfold mbind, io_bind. now rewrite H2.
  - apply bind_value in H1 as (w0 & [] & E0 & H1).
    rewrite (bind_step _ _ _ _ _ E0). now apply IH.
Qed.

(** X7: [copyTemplate] never throws and never stops the process: it
    always returns a boolean, and when that is [false] the console
    ends with the error line of its [catch] block followed by the
    error object that was caught. *)
Theorem copyTemplate_never_throws (template : tnode) (targetPath : path) (w : World) :
  exists w' b,
    copyTemplate handlebars template targetPath variables w = (w', Value b)
    /\ (b = false ->
        exists shown e,
          console w'
          = shown ++ [(LError, "Failed to copy template"); (LErrorObject, e)]).
Proof.
  destruct (copyTemplate_returns handlebars variables template targetPath w)
    as (w' & b & E).
  exists w', b. split; [exact E |]. intros ->.
  rewrite copyTemplate_eq in E. unfold tryCatch in E.
  match type of E with context [match ?body w with _ => _ end] =>
    destruct (body w) as [w1 [b | e | c]] eqn:Ebody end.
  - injection E as <- ->. exfalso.
    apply bind_value in Ebody as (w2 & [] & _ & Ebody).
    apply bind_value in Ebody as (w3 & files & _ & Ebody).
    apply copyEntries_value in Ebody. discriminate.
  - rewrite copyFailed_run in E. injection E as <-. now exists (console w1), e.
  - discriminate.
Qed.

(** X8: a failure below a subdirectory never reaches the walk of the
    parent: a listing of directories only is walked to the end and the
    walk returns [true], whatever happened inside them. *)
Theorem copyTemplate_ignores_subdirectory_failures
        (entries : list (string * tnode)) (targetPath : path) (w w0 : World) :
  Forall (fun e => isDirectory (snd e) = true) entries ->
  ensureDir targetPath w = (w0, Value tt) ->
  exists w', copyTemplate handlebars (TDir entries) targetPath variables w
             = (w', Value true).
Proof.
  intros Hdirs Hdir.
  assert (forall w1, exists w',
             copyEntries handlebars entries targetPath variables w1 = (w', Value true))
    as Hwalk.
  { induction Hdirs as [| [name file] rest Hfile _ IH]; simpl; intros w1.
    - now exists w1.
    - rewrite (bind_step _ _ _ _ _
                 (copyEntry_directory handlebars variables name file targetPath w1 Hfile)).
      apply IH. }
  destruct (Hwalk w0) as (w' & E). exists w'.
  exact (copyTemplate_of_entries handlebars variables _ _ _ _ _ Hdir E).
Qed.

(** X9: a template file is written as the text Handlebars makes of
    it, under the name without the marker. The mode of the template
    file itself is not carried over: the target keeps the mode it had,
    or gets the mode of a new file, and only [index.mjs] is set to
    0o755. *)
Theorem copyEntry_template (recurse : path -> io bool) (name : string) (file : tnode)
        (targetPath : path) (w w' : World) :
  isDirectory file = false ->
  Js.endsWith ".template" name = true ->
  copyEntry handlebars recurse name file targetPath variables w = (w', Value tt) ->
  exists mode data processed,
    file = TFile mode data
    /\ handlebars data variables = Some processed
    /\ files w' !! path_join targetPath (Js.replace ".template" "" name)
       = Some (NFile
                 (if String.eqb (Js.replace ".template" "" name) "index.mjs" then 493%Z
                  else match files w !! path_join targetPath
                                         (Js.replace ".template" "" name) with
                       | Some (NFile m0 _) => m0
                       | _ => newFileMode w
                       end)
                 processed).
Proof.
  intros Hfile Hends. unfold copyEntry. rewrite Hfile, Hends. intros H.
  apply bind_value in H as (w1 & content & Hread & H).
  apply bind_value in H as (w2 & processed & Hrender & H).
  apply bind_value in H as (w3 & [] & Hwrite & H).
  apply bind_value in H as (w4 & [] & Hchmod & H).
  destruct file as [mode data | |]; try discriminate.
  injection Hread as <- <-.
  unfold render in Hrender.
  destruct (handlebars data variables) as [processed' |] eqn:Hhb; [| discriminate].
  injection Hrender as <- <-.
  apply writeFile_mode in Hwrite as (Hne & Hfile3).
  injection H as <-. exists mode, data, processed'.
  split; [reflexivity |]. split; [exact Hhb |]. simpl.
  revert Hchmod. destruct (String.eqb _ "index.mjs"); intros Hchmod.
  - exact (chmod_value _ 493 _ _ _ _ Hne Hfile3 Hchmod).
  - injection Hchmod as <-. exact Hfile3.
Qed.

(** X10: the walk stops at the first entry that fails. The entries
    listed after it are not processed, what was written before stays
    as it is, the error line and the error object caught are printed
    and [false] is returned. *)
Theorem copyTemplate_stops_at_first_failure
        (before after : list (string * tnode)) (name : string) (file : tnode)
        (targetPath : path) (w w0 w1 w2 : World) (e : string) :
  ensureDir targetPath w = (w0, Value tt) ->
  copyEntries handlebars before targetPath variables w0 = (w1, Value true) ->
  copyEntry handlebars (fun dest => copyTemplate handlebars file dest variables)
            name file targetPath variables w1 = (w2, Thrown e) ->
  copyTemplate handlebars (TDir (before ++ (name, file) :: after))
    targetPath variables w
  = (mkWorld (files w2)
       (console w2 ++ [(LError, "Failed to copy template"); (LErrorObject, e)])
       (umask w2),
     Value false).
Proof.
  intros Hdir Hbefore Hentry. rewrite copyTemplate_TDir. unfold tryCatch.
  rewrite (bind_step _ _ _ _ _ Hdir).
  rewrite (copyEntries_thrown _ after _ _ _ _ _ _ _ Hbefore Hentry).
  apply copyFailed_run.
Qed.

(** X11: a template path that cannot be listed (a regular file, or a
    directory that cannot be read) still has the target directory
    created before the walk fails: the error line and the error of the
    listing are printed and [false] is returned. *)
Theorem copyTemplate_unlistable (template : tnode) (targetPath : path) (w w0 : World) :
  (forall entries, template <> TDir entries) ->
  ensureDir targetPath w = (w0, Value tt) ->
  exists e,
    readdir template w0 = (w0, Thrown e)
    /\ copyTemplate handlebars template targetPath variables w
       = (mkWorld (files w0)
            (console w0 ++ [(LError, "Failed to copy template"); (LErrorObject, e)])
            (umask w0),
          Value false)
    /\ lookupNode (files w0) targetPath = Some NDir.
Proof.
  intros Hnot Hdir.
  assert (exists e, readdir template w0 = (w0, Thrown e)) as (e & Hlist).
  { destruct template as [mode data | entries | d]; simpl; eauto.
    now contradiction (Hnot entries). }
  exists e. split; [exact Hlist |]. split.
  - rewrite copyTemplate_eq. unfold tryCatch. rewrite (bind_step _ _ _ _ _ Hdir).
    destruct template as [mode data | entries | d];
      try (now contradiction (Hnot entries));
      injection Hlist as <-; apply copyFailed_run.
  - exact (ensureDir_directory _ _ _ Hdir).
Qed.

End Outcomes.

Lemma copyTemplate_ignores_subdirectory_failures_witness :
  exists w', copyTemplate substitute
               (TDir [("bin", TDir [("run.template", TDenied false)]);
                      ("src", TDenied true)])
               ["home"; "demo-cli"] demoInfo home
             = (w', Value true).
Proof.
  apply (copyTemplate_ignores_subdirectory_failures substitute demoInfo
           [("bin", TDir [("run.template", TDenied false)]); ("src", TDenied true)]
           ["home"; "demo-cli"] home (fst (ensureDir ["home"; "demo-cli"] home))).
  - repeat constructor.
  - apply eq_pair_of_snd. vm_compute. reflexivity.
Defined.

Lemma copyEntry_template_witness :
  exists mode data processed,
    TFile 493 "# {{name}}" = TFile mode data
    /\ substitute data demoInfo = Some processed
    /\ files (fst (copyEntry substitute (fun _ => mret true) "README.md.template"
                     (TFile 493 "# {{name}}") ["home"; "demo-cli"] demoInfo
                     homeWithEmptyTarget))
         !! path_join ["home"; "demo-cli"] (Js.replace ".template" "" "README.md.template")
       = Some (NFile
                 (if String.eqb (Js.replace ".template" "" "README.md.template")
                                "index.mjs" then 493%Z
                  else match files homeWithEmptyTarget
                               !! path_join ["home"; "demo-cli"]
                                    (Js.replace ".template" "" "README.md.template") with
                       | Some (NFile m0 _) => m0
                       | _ => newFileMode homeWithEmptyTarget
                       end)
                 processed).
Proof.
  apply (copyEntry_template substitute demoInfo (fun _ => mret true) "README.md.template"
           (TFile 493 "# {{name}}") ["home"; "demo-cli"] homeWithEmptyTarget).
  - reflexivity.
  - reflexivity.
  - apply eq_pair_of_snd. vm_compute. reflexivity.
Defined.

Lemma copyTemplate_stops_at_first_failure_witness :
  let before := [("gitignore", TFile 420 "node_modules")] in
  let after := [("package.json.template", TFile 420 "{ }")] in
  let w0 := fst (ensureDir ["home"; "demo-cli"] home) in
  let w1 := fst (copyEntries substitute before ["home"; "demo-cli"] demoInfo w0) in
  let w2 := fst (copyEntry substitute
                   (fun dest => copyTemplate substitute (TDenied false) dest demoInfo)
                   "index.mjs.template" (TDenied false) ["home"; "demo-cli"] demoInfo w1) in
  copyTemplate substitute
    (TDir (before ++ ("index.mjs.template", TDenied false) :: after))
    ["home"; "demo-cli"] demoInfo home
  = (mkWorld (files w2)
       (console w2 ++ [(LError, "Failed to copy template"); (LErrorObject, "EACCES")])
       (umask w2),
     Value false).
Proof.
  apply (copyTemplate_stops_at_first_failure substitute demoInfo
           [("gitignore", TFile 420 "node_modules")]
           [("package.json.template", TFile 420 "{ }")]
           "index.mjs.template" (TDenied false) ["home"; "demo-cli"] home
           (fst (ensureDir ["home"; "demo-cli"] home))
           (fst (copyEntries substitute [("gitignore", TFile 420 "node_modules")]
                   ["home"; "demo-cli"] demoInfo
                   (fst (ensureDir ["home"; "demo-cli"] home))))
           _ "EACCES").
  - apply eq_pair_of_snd. vm_compute. reflexivity.
  - apply eq_pair_of_snd. vm_compute. reflexivity.
  - apply eq_pair_of_snd. vm_compute. reflexivity.
Defined.

Lemma copyTemplate_unlistable_witness :
  let w0 := fst (ensureDir ["home"; "demo-cli"] home) in
  exists e,
    readdir (TDenied true) w0 = (w0, Thrown e)
    /\ copyTemplate substitute (TDenied true) ["home"; "demo-cli"] demoInfo home
       = (mkWorld (files w0)
            (console w0 ++ [(LError, "Failed to copy template"); (LErrorObject, e)])
            (umask w0),
          Value false)
    /\ lookupNode (files w0) ["home"; "demo-cli"] = Some NDir.
Proof.
  apply (copyTemplate_unlistable substitute demoInfo (TDenied true)
           ["home"; "demo-cli"] home).
  - discriminate.
  - apply eq_pair_of_snd. vm_compute. reflexivity.
Defined.

Lemma copyEntry_verbatim_same_name_witness :
  exists mode data,
    TFile 420 "PNG" = TFile mode data
    /\ files (fst (copyEntry substitute (fun _ => mret true) "logo.png" (TFile 420 "PNG")
                     ["home"; "demo-cli"] demoInfo homeWithEmptyTarget))
         !! path_join ["home"; "demo-cli"] "logo.png"
       = Some (NFile mode data).
Proof.
  apply (copyEntry_verbatim_same_name substitute demoInfo (fun _ => mret true) "logo.png"
           (TFile 420 "PNG") ["home"; "demo-cli"] homeWithEmptyTarget).
  - reflexivity.
  - reflexivity.
  - reflexivity.
  - apply eq_pair_of_snd. vm_compute. reflexivity.
Defined.

Lemma getProjectInfo_prompted_name_valid_witness :
  validName (ProjectInfo.name (ProjectInfo.mk "my-app" "My app" "" "A" "MIT" "")) = true.
Proof.
  apply (getProjectInfo_prompted_name_valid {| yes := false; git := true; install := true |}
           {| git_name := "A"; git_email := "" |} ["my app"; "my-app"; ""; ""; ""; ""] []).
  - reflexivity.
  - reflexivity.
Defined.

(** ** Template materializer: where it writes *)

Lemma enter_below (target base : path) (seg : string) :
  String.eqb ".." seg = false ->
  target `prefix_of` base -> target `prefix_of` enter base seg.
Proof.
  intros Hseg Hbase. unfold enter. rewrite String.eqb_sym in Hseg. rewrite Hseg.
  destruct (_ || _); [exact Hbase | now apply prefix_app_r].
Qed.

Lemma path_join_below (target base : path) (s : string) :
  staysBelow s = true ->
  target `prefix_of` base -> target `prefix_of` path_join base s.
Proof.
  unfold staysBelow, path_join. intros Hs. apply negb_true_iff in Hs.
  revert base Hs. induction (segments s) as [| seg segs IH]; simpl; intros base Hs Hbase.
  - exact Hbase.
  - apply orb_false_elim in Hs as [Hseg Hsegs].
    apply IH; [exact Hsegs |]. now apply enter_below.
Qed.

Lemma chain_prefix (base rest q : path) : q ∈ chain base rest -> q `prefix_of` base ++ rest.
Proof.
  revert base. induction rest as [| c rest IH]; simpl; intros base Hq.
  - now apply elem_of_nil in Hq.
  - apply elem_of_cons in Hq as [-> | Hq].
    + exists rest. now rewrite <- app_assoc.
    + apply IH in Hq. now rewrite <- app_assoc in Hq.
Qed.

Lemma removelast_prefix (l : path) : removelast l `prefix_of` l.
Proof.
  destruct l as [| c l] using rev_ind; [reflexivity |].
  rewrite removelast_last. now exists [c].
Qed.

Lemma safeNames_eq (entries : list (string * tnode)) :
  safeNames (TDir entries) = safeEntries entries.
Proof.
  simpl. induction entries as [| [name file] rest IH]; simpl; [reflexivity |].
  now rewrite IH.
Qed.

(** Every path a walk of safely named entries may write lies on the
    branch of the target: at it, below it, or above it. *)
Lemma writeSet_branch (template : tnode) :
  forall (targetPath q : path),
    safeNames template = true ->
    q ∈ writeSet template targetPath ->
    q `prefix_of` targetPath \/ targetPath `prefix_of` q.
Proof.
  induction template as [mode data | entries IH | d] using tnode_ind;
    intros targetPath q Hsafe; rewrite writeSet_eq; intros Hq;
    apply elem_of_app in Hq as [Hq | Hq];
    try (left; exact (chain_prefix [] _ _ Hq));
    try (now apply elem_of_nil in Hq).
  rewrite safeNames_eq in Hsafe.
  induction IH as [| [name file] rest Hfile _ IHrest]; simpl in *;
    [now apply elem_of_nil in Hq |].
  apply andb_prop in Hsafe as [Hsafe Hrest]. apply andb_prop in Hsafe as [Hname Hsub].
  apply elem_of_app in Hq as [Hq | Hq]; [| now apply IHrest].
  pose proof (path_join_below targetPath targetPath _ Hname (reflexivity _)) as Hdest.
  revert Hq. unfold writeSetEntry.
  destruct (isDirectory file).
  { intros Hq. destruct (Hfile _ _ Hsub Hq) as [H | H].
    - exact (prefix_weak_total _ _ _ H Hdest).
    - right. now transitivity (path_join targetPath (Js.replace ".template" "" name)). }
  destruct (Js.endsWith ".template" name).
  { intros Hq. apply list_elem_of_singleton in Hq as ->. now right. }
  destruct (String.eqb name "gitignore").
  { intros Hq. apply list_elem_of_singleton in Hq as ->. right.
    now exists [".gitignore"]. }
  intros Hq. apply elem_of_cons in Hq as [-> | Hq]; [now right |].
  apply (chain_prefix []) in Hq. simpl in Hq.
  apply (prefix_weak_total _ _ (path_join targetPath (Js.replace ".template" "" name)));
    [| exact Hdest].
  transitivity (dirname (path_join targetPath (Js.replace ".template" "" name)));
    [exact Hq | apply removelast_prefix].
Qed.

(** X12: when no entry of the template has a [..] segment in its
    target name, materialization changes nothing off the branch of the
    target: a path that is neither the target, nor below it, nor one of
    its ancestors holds after the walk what it held before. *)
Theorem copyTemplate_stays_in_target
        (handlebars : string -> ProjectInfo.t -> option string)
        (variables : ProjectInfo.t) (template : tnode) (targetPath q : path)
        (w w' : World) (r : result bool) :
  safeNames template = true ->
  ~ targetPath `prefix_of` q ->
  ~ q `prefix_of` targetPath ->
  copyTemplate handlebars template targetPath variables w = (w', r) ->
  files w' !! q = files w !! q.
Proof.
  intros Hsafe Hbelow Habove.
  apply (keeps_copyTemplate handlebars variables q template targetPath).
  intros Hq. destruct (writeSet_branch _ _ _ Hsafe Hq); tauto.
Qed.

Lemma copyTemplate_stays_in_target_witness :
  files (fst (copyTemplate substitute scaffold ["home"; "demo-cli"] demoInfo home))
    !! ["home"; "other"; "notes.txt"]
  = files home !! ["home"; "other"; "notes.txt"].
Proof.
  apply (copyTemplate_stays_in_target substitute demoInfo scaffold
           ["home"; "demo-cli"] ["home"; "other"; "notes.txt"] home _
           (snd (copyTemplate substitute scaffold ["home"; "demo-cli"] demoInfo home))).
  - vm_compute. reflexivity.
  - compute_done.
  - compute_done.
  - apply surjective_pairing.
Defined.

(** Without that condition the walk leaves the target: a directory
    entry named [...template] is walked into the parent of the
    target. *)
Example copyTemplate_escapes_target :
  files (fst (copyTemplate substitute
                (TDir [("...template", TDir [("notes.txt", TFile 420 "x")])])
                ["home"; "demo-cli"] demoInfo home))
    !! ["home"; "notes.txt"]
  = Some (NFile 420 "x").
Proof. vm_compute. reflexivity. Qed.

(** ** Manifest patch: outcomes, reach, composition *)

Lemma assign_same (key : string) (value : json) (members : list (string * json)) :
  member key members = Some value -> assign key value members = members.
Proof.
  induction members as [| [k v] rest IH]; simpl; [discriminate |].
  destruct (String.eqb k key) eqn:E.
  - now intros [= ->].
  - intros H. now rewrite IH.
Qed.

Lemma assign_keys (key : string) (value : json) (members : list (string * json)) :
  keysOf (assign key value members) = addKey (keysOf members) key.
Proof.
  unfold addKey. induction members as [| [k v] rest IH]; simpl; [reflexivity |].
  rewrite (String.eqb_sym key k). destruct (String.eqb k key); simpl; [reflexivity |].
  rewrite IH. unfold keysOf. now destruct (existsb (String.eqb key) (map fst rest)).
Qed.

Lemma addKey_prefix (keys : list string) (key : string) : keys `prefix_of` addKey keys key.
Proof. unfold addKey. destruct (existsb _ keys); [reflexivity | now exists [key]]. Qed.

(** X14: the patch is idempotent: a manifest that went through the
    five assignments is left as it is by going through them again with
    the same metadata. *)
Theorem patchJson_idempotent (projectInfo : ProjectInfo.t) (before after : json) :
  patchJson projectInfo before = Some after ->
  patchJson projectInfo after = Some after.
Proof.
  destruct before as [| | | | items | members]; try discriminate; intros [= <-];
    [reflexivity |].
  simpl. do 2 f_equal.
  destruct (patchManifest_fields projectInfo members) as (Hn & Hd & Ha & Hl & Hb).
  unfold patchManifest at 1.
  now rewrite (assign_same _ _ _ Hn), (assign_same _ _ _ Hd), (assign_same _ _ _ Ha),
    (assign_same _ _ _ Hl), (assign_same _ _ _ Hb).
Qed.

Lemma patchJson_idempotent_witness :
  patchJson demoInfo (JObject (patchManifest demoInfo templateManifest))
  = Some (JObject (patchManifest demoInfo templateManifest)).
Proof.
  apply (patchJson_idempotent demoInfo (JObject templateManifest)). reflexivity.
Defined.

(** X15: the patch keeps the keys of the manifest in their order and
    puts the keys it has to add after them, in the order name,
    description, author, license, bin. *)
Theorem patchManifest_keys (projectInfo : ProjectInfo.t) (members : list (string * json)) :
  keysOf (patchManifest projectInfo members)
  = fold_left addKey patchedKeys (keysOf members)
  /\ keysOf members `prefix_of` keysOf (patchManifest projectInfo members).
Proof.
  assert (keysOf (patchManifest projectInfo members)
          = fold_left addKey patchedKeys (keysOf members)) as E
      by (unfold patchManifest; now rewrite !assign_keys).
  split; [exact E |]. rewrite E. simpl.
  repeat (etransitivity; [| apply addKey_prefix]). reflexivity.
Qed.

Section ManifestOutcomes.

Variable JSON_parse : string -> option json.
Variable JSON_stringify : json -> string.
Variable targetDir : path.
Variable projectInfo : ProjectInfo.t.

#[local] Abbreviation manifestPath := (path_join targetDir "package.json").

Lemma dirname_manifestPath : dirname manifestPath = targetDir.
Proof. rewrite packageJsonPath_eq. apply removelast_last. Qed.

Lemma lookupNode_manifestPath (fs : gmap path node) :
  lookupNode fs manifestPath = fs !! manifestPath.
Proof. rewrite packageJsonPath_eq. now destruct targetDir. Qed.

Lemma writeFile_manifest (data : string) (w : World) :
  writeFile manifestPath data w =
  match lookupNode (files w) targetDir with
  | Some NDir =>
      match files w !! manifestPath with
      | Some NDir => (w, Thrown "EISDIR")
      | Some (NFile m _) =>
          (setFiles (<[manifestPath := NFile m data]> (files w)) w, Value tt)
      | None =>
          (setFiles (<[manifestPath := NFile (newFileMode w) data]> (files w)) w, Value tt)
      end
  | Some (NFile _ _) => (w, Thrown "ENOTDIR")
  | None => (w, Thrown "ENOENT")
  end.
Proof.
  unfold writeFile. rewrite dirname_manifestPath.
  destruct manifestPath as [| c p] eqn:E; [| reflexivity].
  rewrite packageJsonPath_eq in E. now destruct targetDir.
Qed.

Lemma updateFailed_run (e : string) (w : World) :
  updateFailed e w
  = (mkWorld (files w)
       (console w ++ [(LError, "Failed to update package.json"); (LErrorObject, e)])
       (umask w),
     Value false).
Proof. unfold updateFailed. now rewrite (bind_step _ _ _ _ _ (error_run _ e w)). Qed.

(** X16: [updatePackageJson] never throws and always returns a
    boolean. When it returns [true], package.json was a regular file
    in an existing directory, its text parsed to an object or an
    array, and the file now holds the serialization of the patched
    value under the mode it had. When it returns [false], nothing has
    been written, and the error line followed by the error object
    caught has been printed. *)
Theorem updatePackageJson_outcome (w : World) :
  exists w' ok,
    updatePackageJson JSON_parse JSON_stringify targetDir projectInfo w = (w', Value ok)
    /\ (ok = true ->
        exists mode data before after,
          files w !! manifestPath = Some (NFile mode data)
          /\ JSON_parse data = Some before
          /\ patchJson projectInfo before = Some after
          /\ lookupNode (files w) targetDir = Some NDir
          /\ files w' = <[manifestPath := NFile mode (JSON_stringify after)]> (files w))
    /\ (ok = false ->
        files w' = files w
        /\ exists e,
             console w'
             = console w ++ [(LError, "Failed to update package.json");
                             (LErrorObject, e)]).
Proof.
  rewrite updatePackageJson_eq, lookupNode_manifestPath.
  assert (forall e, exists w' ok,
             updateFailed e w = (w', Value ok)
             /\ (ok = true ->
                 exists mode data before after,
                   files w !! manifestPath = Some (NFile mode data)
                   /\ JSON_parse data = Some before
                   /\ patchJson projectInfo before = Some after
                   /\ lookupNode (files w) targetDir = Some NDir
                   /\ files w'
                      = <[manifestPath := NFile mode (JSON_stringify after)]> (files w))
             /\ (ok = false ->
                 files w' = files w
                 /\ exists e,
                      console w'
                      = console w ++ [(LError, "Failed to update package.json");
                                      (LErrorObject, e)]))
    as Hfail.
  { intros e. rewrite updateFailed_run. eexists _, false.
    split; [reflexivity |]. split; [discriminate |]. intros _. simpl. eauto. }
  destruct (files w !! manifestPath) as [[| mode data] |] eqn:Hfile; try apply Hfail.
  destruct (JSON_parse data) as [before |] eqn:Hparse; try apply Hfail.
  destruct (patchJson projectInfo before) as [after |] eqn:Hpatch; try apply Hfail.
  rewrite writeFile_manifest, Hfile.
  destruct (lookupNode (files w) targetDir) as [[| ? ?] |] eqn:Hdir; try apply Hfail.
  eexists _, true. split; [reflexivity |]. split; [| discriminate].
  intros _. exists mode, data, before, after. repeat split; assumption || reflexivity.
Qed.

(** X17: [updatePackageJson] changes no path other than package.json
    in the target directory. *)
Theorem updatePackageJson_touches_only_manifest (q : path) (w w' : World)
        (r : result bool) :
  q <> manifestPath ->
  updatePackageJson JSON_parse JSON_stringify targetDir projectInfo w = (w', r) ->
  files w' !! q = files w !! q.
Proof.
  intros Hq. rewrite updatePackageJson_eq.
  assert (forall e w0, updateFailed e w0 = (w', r) -> files w' !! q = files w0 !! q)
    as Hfail by (intros e w0 [= <- _]; reflexivity).
  destruct (lookupNode (files w) manifestPath) as [[| mode data] |]; eauto.
  destruct (JSON_parse data) as [before |]; eauto.
  destruct (patchJson projectInfo before) as [after |]; eauto.
  destruct (writeFile manifestPath (JSON_stringify after) w)
    as [w1 [[] | e | c]] eqn:Hwrite;
    pose proof (keeps_writeFile q manifestPath _ Hq _ _ _ Hwrite) as Hkeep.
  - intros [= <- _]. exact Hkeep.
  - intros H. rewrite (Hfail _ _ H). exact Hkeep.
  - intros [= <- _]. exact Hkeep.
Qed.

End ManifestOutcomes.

Lemma updatePackageJson_touches_only_manifest_witness :
  files (fst (updatePackageJson parseToy stringifyToy ["home"; "demo-cli"] demoInfo
                materializedProject))
    !! ["home"; "demo-cli"; "index.mjs"]
  = files materializedProject !! ["home"; "demo-cli"; "index.mjs"].
Proof.
  apply (updatePackageJson_touches_only_manifest parseToy stringifyToy
           ["home"; "demo-cli"] demoInfo ["home"; "demo-cli"; "index.mjs"]
           materializedProject _
           (snd (updatePackageJson parseToy stringifyToy ["home"; "demo-cli"] demoInfo
                   materializedProject))).
  - discriminate.
  - apply surjective_pairing.
Defined.

(** ** Best-effort steps: git and npm *)

Section ExternalSteps.

Variable exec : string -> path -> gmap path node -> gmap path node * bool.
Variable gitConfig : string -> option string.

(** X18: [initGit] never throws. It returns whether [git init] exited
    with 0, keeps what the command left on disk either way, and logs
    one line: a success, or a warning when the command failed. *)
Theorem initGit_outcome (targetDir : path) (w : World) :
  let ran := exec "git init" targetDir (files w) in
  let out := initGit exec targetDir w in
  snd out = Value (snd ran)
  /\ files (fst out) = fst ran
  /\ console (fst out)
     = console w ++ [if snd ran then (LSuccess, "Initialized git repository")
                     else (LWarning, "Failed to initialize git repository")].
Proof.
  unfold initGit, tryCatch, execPromise, mbind, io_bind. simpl.
  destruct (exec "git init" targetDir (files w)) as [fs [|]]; simpl; repeat split.
Qed.

(** X19: [installDependencies] never throws. It announces the
    installation, returns whether [npm install] exited with 0, keeps
    what the command left on disk either way, and then logs a success
    or, when the command failed, the error line followed by the error
    of the command. *)
Theorem installDependencies_outcome (targetDir : path) (w : World) :
  let ran := exec "npm install" targetDir (files w) in
  let out := installDependencies exec targetDir w in
  snd out = Value (snd ran)
  /\ files (fst out) = fst ran
  /\ console (fst out)
     = console w
       ++ (LInfo, "Installing dependencies... This might take a few minutes.")
          :: (if snd ran then [(LSuccess, "Dependencies installed successfully")]
              else [(LError, "Failed to install dependencies");
                    (LErrorObject, "Command failed")]).
Proof.
  unfold installDependencies, tryCatch, execPromise, logger.error, mbind, io_bind.
  simpl.
  destruct (exec "npm install" targetDir (files w)) as [fs [|]]; simpl;
    rewrite <- ?app_assoc; repeat split.
Qed.

(** X20: [getGitUser] is all or nothing. It always answers and writes
    no file; either both lookups succeeded and it returns both values
    without logging, or it returns two empty strings and logs one
    warning, also when only one of the lookups failed. *)
Theorem getGitUser_all_or_nothing (w : World) :
  let out := getGitUser gitConfig w in
  exists gitUser,
    snd out = Value gitUser
    /\ files (fst out) = files w
    /\ ((gitConfig "user.name" = Some (git_name gitUser)
         /\ gitConfig "user.email" = Some (git_email gitUser)
         /\ fst out = w)
        \/ ((gitConfig "user.name" = None \/ gitConfig "user.email" = None)
            /\ gitUser = {| git_name := ""; git_email := "" |}
            /\ console (fst out)
               = console w ++ [(LWarning, "Could not get git user info")])).
Proof.
  unfold getGitUser, tryCatch.
  destruct (gitConfig "user.name") as [n |], (gitConfig "user.email") as [e |];
    simpl; eexists; (split; [reflexivity |]); (split; [reflexivity |]);
    solve [left; repeat split | right; repeat split; auto].
Qed.

End ExternalSteps.

(** ** The command: how a run ends *)

Section CommandOutcomes.

Variable handlebars : string -> ProjectInfo.t -> option string.
Variable JSON_parse : string -> option json.
Variable JSON_stringify : json -> string.
Variable exec : string -> path -> gmap path node -> gmap path node * bool.
Variable options : Options.
Variable cwd : path.
Variable scaffold : tnode.
Variable projectInfo : ProjectInfo.t.

#[local] Abbreviation target := (path_resolve cwd (ProjectInfo.name projectInfo)).
#[local] Abbreviation command :=
  (tryCatch (createProject handlebars JSON_parse JSON_stringify exec
               projectInfo options cwd scaffold) createFailed).

Lemma whenOn_value (flag : bool) (step : io bool) (w w' : World) (r : option bool) :
  whenOn flag step w = (w', Value r) -> (r = None <-> flag = false).
Proof.
  unfold whenOn. destruct flag.
  - intros H. apply bind_value in H as (w1 & b & _ & [= _ <-]). split; discriminate.
  - intros [= _ <-]. split; reflexivity.
Qed.

(** Where the steps after [ensureDir] end, the closing message is the
    last line, and a step has no result exactly when it was switched
    off. *)
Lemma createProject_tail_end (w0 w' : World) (steps : Steps) :
  (c ← copyTemplate handlebars scaffold target projectInfo;
   p ← updatePackageJson JSON_parse JSON_stringify target projectInfo;
   g ← whenOn (git options) (initGit exec target);
   i ← whenOn (install options) (installDependencies exec target);
   logger.success (nextSteps (ProjectInfo.name projectInfo));;
   mret {| copied := c; patched := p; gitInitialized := g; installed := i |}) w0
  = (w', Value steps) ->
  last (console w') = Some (LSuccess, nextSteps (ProjectInfo.name projectInfo))
  /\ (gitInitialized steps = None <-> git options = false)
  /\ (installed steps = None <-> install options = false).
Proof.
  intros H.
  apply bind_value in H as (w2 & c & _ & H).
  apply bind_value in H as (w3 & p & _ & H).
  apply bind_value in H as (w4 & g & Hg & H).
  apply bind_value in H as (w5 & i & Hi & H).
  apply bind_value in H as (w6 & [] & Hlog & H).
  injection H as <- <-. injection Hlog as <-. simpl.
  split; [apply last_snoc |].
  split; [exact (whenOn_value _ _ _ _ _ Hg) | exact (whenOn_value _ _ _ _ _ Hi)].
Qed.

Lemma createFailed_run (e : string) (w : World) :
  createFailed e w
  = (mkWorld (files w)
       (console w ++ [(LError, "Failed to create project:"); (LErrorObject, e)])
       (umask w),
     Exited 1).
Proof. unfold createFailed. now rewrite (bind_step _ _ _ _ _ (error_run _ e w)). Qed.

(** What the command prints about a target that exists. *)
Lemma createProject_conflict (w : World) :
  existsSync target w = true ->
  command w
  = (mkWorld (files w)
       (console w ++
        match lookupNode (files w) target with
        | Some (NFile _ _) =>
            [(LError, "Failed to create project:"); (LErrorObject, "ENOTDIR")]
        | _ =>
            [(LError,
              if Nat.eqb (length (children (files w) target)) 0
              then "Directory " +:+ ProjectInfo.name projectInfo +:+ " already exists."
              else "Directory " +:+ ProjectInfo.name projectInfo
                   +:+ " already exists and is not empty.")]
        end)
       (umask w),
     Exited 1).
Proof.
  intros Hex. unfold tryCatch, createProject.
  unfold mbind at 1, io_bind at 1. rewrite Hex.
  revert Hex. unfold existsSync, readdirSync. unfold mbind at 1, io_bind at 1.
  destruct (lookupNode (files w) _) as [[| mode data] |]; try discriminate; intros _.
  - destruct (Nat.eqb _ 0); reflexivity.
  - apply createFailed_run.
Qed.

(** X21: a run of the command from the resolved metadata on never
    ends with an uncaught exception. Either it ends normally, with the
    closing message as the last line and a result for exactly the
    optional steps that were switched on, or the process stops with
    status 1 and no file written, after printing one error line and,
    where an exception was caught, the error object after it. *)
Theorem createProject_ends (w : World) :
  let out := command w in
  (exists steps,
      snd out = Value steps
      /\ last (console (fst out))
         = Some (LSuccess, nextSteps (ProjectInfo.name projectInfo))
      /\ (gitInitialized steps = None <-> git options = false)
      /\ (installed steps = None <-> install options = false))
  \/ (snd out = Exited 1
      /\ files (fst out) = files w
      /\ exists message object,
           console (fst out) = console w ++ (LError, message) :: object
           /\ (object = [] \/ exists e, object = [(LErrorObject, e)])).
Proof.
  cbv zeta. destruct (existsSync target w) eqn:Hex.
  - right. rewrite (createProject_conflict w Hex). simpl.
    split; [reflexivity |]. split; [reflexivity |].
    destruct (lookupNode (files w) target) as [[| mode data] |]; eauto 6.
  - destruct (command w) as [w' r] eqn:Hrun. revert Hrun.
    unfold tryCatch, createProject.
    unfold mbind at 1, io_bind at 1. rewrite Hex.
    unfold mbind at 1, io_bind at 1.
    destruct (ensureDir_run target w) as [(Hc & w0 & Hdir) | (Hc & e & Hdir)];
      rewrite Hdir.
    + destruct (createProject_tail_returns handlebars JSON_parse JSON_stringify exec
                  options scaffold projectInfo target w0) as (w1 & steps & E).
      rewrite E. intros [= <- <-]. left. exists steps. split; [reflexivity |].
      exact (createProject_tail_end _ _ _ E).
    + rewrite createFailed_run. intros [= <- <-]. right. simpl. eauto 8.
Qed.


End CommandOutcomes.


(** ** The first generation of the command *)

Section CreateJsOutcomes.

Variable exec : string -> path -> gmap path node -> gmap path node * bool.
Variable copyTemplateJs : path -> ProjectInfoJs.t -> io bool.
Variable options : Options.
Variable cwd : path.
Variable projectInfo : ProjectInfoJs.t.

#[local] Abbreviation targetJs := (path_resolve cwd (ProjectInfoJs.name projectInfo)).


End CreateJsOutcomes.

